(** * Point2, Point3 and StereoPoint2 of the gtsam geometry module

    A shallow embedding of [Point2.h], [Point3.h] and [StereoPoint2.h].
    A C++ [double] is an IEEE 754 binary64 value: it is modelled by the
    primitive type [float], whose operations are specified bit for bit
    by [SpecFloat] (round to nearest, ties to even; one NaN).  Equality
    of points, vectors and matrices in the statements below is equality
    of all fields as binary64 values; the C++ comparison [==] on doubles
    is [PrimFloat.eqb]. *)

From Stdlib Require Import ZArith Lia Bool List.
From Stdlib Require Import Floats.
From stdpp Require Import gmap.
Import ListNotations.

(** ** Errors and fallible computations *)

(** [BadIndex] is the failure of an out-of-range element access on a
    vector ([boost::numeric::ublas::bad_index], raised by the bound check
    of [operator()]; without the check the access is undefined).
    [InvalidDimension] is the error the specification names for a vector
    of the wrong length. *)
Inductive error : Set :=
  | InvalidDimension
  | BadIndex.

Definition result (A : Type) : Type := (error + A)%type.

Definition ok {A : Type} (a : A) : result A := inr a.
Definition fail {A : Type} (e : error) : result A := inl e.

Definition bind {A B : Type} (r : result A) (k : A -> result B) : result B :=
  match r with
  | inl e => inl e
  | inr a => k a
  end.

Notation "'let*' x ':=' r 'in' k" := (bind r (fun x => k))
  (at level 10, x name, r at level 100, k at level 200).

(** ** Vectors and matrices (gtsam/base/Vector.h, gtsam/base/Matrix.h) *)

(** Modelled from the spec: the [Vector] type of gtsam/base/Vector.h is
    not under src/; it is a dynamic-length, 0-indexed sequence of
    doubles. *)
Definition Vector : Type := list float.

(** [v(i)]: element read; an index past the end does not yield an
    element. *)
Definition vget (v : Vector) (i : nat) : result float :=
  match nth_error v i with
  | Some a => ok a
  | None => fail BadIndex
  end.

(** Modelled from the spec: [Vector_] of gtsam/base/Vector.h is not under
    src/; [Vector_(n, a1, ..., an)] is the vector of the [n] listed
    values, in order. *)
Definition Vector_ (n : nat) (vals : list float) : Vector := firstn n vals.

(** Modelled from the spec: the [Matrix] type of gtsam/base/Matrix.h is
    not under src/; a matrix is kept as the list of its rows. *)
Definition Matrix : Type := list (list float).

Fixpoint chunks (m n : nat) (vals : list float) : Matrix :=
  match m with
  | O => []
  | S m' => firstn n vals :: chunks m' n (skipn n vals)
  end.

(** Modelled from the spec: [Matrix_] of gtsam/base/Matrix.h is not under
    src/; [Matrix_(m, n, a11, a12, ...)] is the [m] by [n] matrix of the
    listed values, row by row. *)
Definition Matrix_ (m n : nat) (vals : list float) : Matrix := chunks m n vals.

(** Modelled from the spec: [eye] of gtsam/base/Matrix.h is not under
    src/; [eye(n)] is the [n] by [n] identity matrix. *)
Definition eye (n : nat) : Matrix :=
  map (fun i => map (fun j => if Nat.eqb i j then 1%float else 0%float) (seq 0 n))
      (seq 0 n).

(** Unary minus on a matrix negates every entry. *)
Definition mat_opp (M : Matrix) : Matrix := map (map PrimFloat.opp) M.

(** Entry [(i, j)] of a matrix. *)
Definition mat_entry (M : Matrix) (i j : nat) : option float :=
  match nth_error M i with
  | Some row => nth_error row j
  | None => None
  end.

(** ** The Lie interface (gtsam/base/Lie.h) *)

Module Lie.

(** Modelled from the spec: the [Lie<T>] interface of gtsam/base/Lie.h is
    not under src/; a Lie element provides [dim], [compose], [inverse],
    and the static [Expmap] and [Logmap]. *)
Class ops (T : Type) : Type := {
  dim : T -> nat;
  compose_member : T -> T -> T;
  inverse : T -> T;
  Expmap : Vector -> result T;
  Logmap : T -> Vector
}.

(** Modelled from the spec: the free function template [compose] of
    gtsam/base/Lie.h is not under src/; [compose(p1, p2)] is the member
    call [p1.compose(p2)]. *)
Definition compose {T : Type} `{ops T} (p1 p2 : T) : T := compose_member p1 p2.

End Lie.

(** ** Output slots for Jacobians *)

(** A [boost::optional<Matrix&>] is either [boost::none] or a reference
    to a matrix of the caller.  References are locations of a store; an
    assignment through the reference is recorded as a write. *)
Abbreviation loc := nat.
Abbreviation slot := (option nat).

Definition writes : Type := list (loc * Matrix).

(** [if (H) *H = M;] *)
Definition assign_if (H : slot) (M : Matrix) : writes :=
  match H with
  | Some l => [(l, M)]
  | None => []
  end.

(** The store after the writes, applied in program order. *)
Fixpoint apply_writes (ws : writes) (st : gmap nat Matrix) : gmap nat Matrix :=
  match ws with
  | [] => st
  | (l, M) :: ws' => apply_writes ws' (<[l := M]> st)
  end.

Definition written (ws : writes) : list loc := map fst ws.

(** ** Classes of doubles *)

(** A binary64 value that is a zero or a finite nonzero number. *)
Definition SFfinite (x : spec_float) : bool :=
  match x with
  | S754_zero _ | S754_finite _ _ _ => true
  | _ => false
  end.

(** The binary64 value of the integer [n] (rounded when [n] needs more
    than 53 bits). *)
Definition Zfloat (n : Z) : spec_float := binary_normalize prec emax n 0 false.

(** The integer a binary64 value denotes, when it denotes one.  Negative
    zero is not counted: it does not behave as the integer 0 under
    addition. *)
Definition SFto_Z (x : spec_float) : option Z :=
  match x with
  | S754_zero false => Some 0%Z
  | S754_finite s m e =>
      if ((e <=? 0) && (Z.pos m mod 2 ^ (- e) =? 0))%Z
      then Some (cond_Zopp s (Z.pos m / 2 ^ (- e)))
      else None
  | _ => None
  end.

(** An integer-valued double of magnitude at most 2^51 (negative zero
    excluded). *)
Definition small_int (x : float) : bool :=
  match SFto_Z (Prim2SF x) with
  | Some n => (Z.abs n <=? 2 ^ 51)%Z
  | None => false
  end.

(** The double is negative zero. *)
Definition is_neg_zero (x : float) : bool := Leibniz.eqb x (-0)%float.

(** ** Point2 *)

Module Point2.

Record t : Set := mk { x_ : float; y_ : float }.

Definition dimension : nat := 2.

(** [Point2()] *)
Definition default : t := mk 0 0.

(** [Point2(const Vector& v) : x_(v(0)), y_(v(1))] *)
Definition of_Vector (v : Vector) : result t :=
  let* a := vget v 0 in
  let* b := vget v 1 in
  ok (mk a b).

Definition Dim : nat := dimension.
Definition dim (p : t) : nat := dimension.

Definition x (p : t) : float := x_ p.
Definition y (p : t) : float := y_ p.

Definition vector (p : t) : Vector := Vector_ 2 [x_ p; y_ p].

(** Unary [operator-] *)
Definition neg (p : t) : t := mk (- x_ p) (- y_ p).

(** [operator==]: [x_==q.x_ && q.y_==q.y_] *)
Definition eq_op (p q : t) : bool := (x_ p =? x_ q)%float && (y_ q =? y_ q)%float.

(** [operator+], [operator-], [operator*], [operator/] *)
Definition add (p q : t) : t := mk (x_ p + x_ q) (y_ p + y_ q).
Definition sub (p q : t) : t := mk (x_ p - x_ q) (y_ p - y_ q).
Definition mul (p : t) (s : float) : t := mk (x_ p * s) (y_ p * s).
Definition div (p : t) (q : float) : t := mk (x_ p / q) (y_ p / q).

(** Member [compose]: [*this + p1] *)
Definition compose (p p1 : t) : t := add p p1.

Definition inverse (p : t) : t := mk (- x_ p) (- y_ p).

Definition Expmap (v : Vector) : result t := of_Vector v.

Definition Logmap (dp : t) : Vector := Vector_ 2 [x dp; y dp].

(** Modelled from the spec: [Point2::equals] is declared in Point2.h and
    defined outside src/; all corresponding fields differ by less than
    the tolerance in absolute value. *)
Definition equals (p q : t) (tol : float) : bool :=
  (abs (x_ p - x_ q) <? tol)%float && (abs (y_ p - y_ q) <? tol)%float.

#[global] Instance Lie_ops : Lie.ops t := {|
  Lie.dim := dim;
  Lie.compose_member := compose;
  Lie.inverse := inverse;
  Lie.Expmap := Expmap;
  Lie.Logmap := Logmap
|}.

(** Free function [compose] with optional Jacobian outputs. *)
Definition compose_opt (p1 p2 : t) (H1 H2 : slot) : t * writes :=
  let w1 := assign_if H1 (eye 2) in
  let w2 := assign_if H2 (eye 2) in
  (Lie.compose p1 p2, w1 ++ w2).

Definition Dcompose1 (p1 p0 : t) : Matrix := Matrix_ 2 2 [1; 0; 0; 1]%float.
Definition Dcompose2 (p1 p0 : t) : Matrix := Matrix_ 2 2 [1; 0; 0; 1]%float.

(** Free function [between]: [p2-p1] *)
Definition between (p1 p2 : t) : t := sub p2 p1.

(** Free function [between] with optional Jacobian outputs. *)
Definition between_opt (p1 p2 : t) (H1 H2 : slot) : t * writes :=
  let w1 := assign_if H1 (mat_opp (eye 2)) in
  let w2 := assign_if H2 (eye 2) in
  (between p1 p2, w1 ++ w2).

(** Every coordinate is a finite double (neither infinite nor NaN). *)
Definition finite (p : t) : bool := is_finite (x_ p) && is_finite (y_ p).

(** Every coordinate is an integer of magnitude at most 2^51 (and not
    negative zero). *)
Definition small_ints (p : t) : bool := small_int (x_ p) && small_int (y_ p).

(** Free function [operator*(double s, const Point2& p)]: [p*s] *)
Definition smul (s : float) (p : t) : t := mul p s.

(** No coordinate is negative zero. *)
Definition no_neg_zero (p : t) : bool :=
  negb (is_neg_zero (x_ p)) && negb (is_neg_zero (y_ p)).

End Point2.

(** ** Point3 *)

Module Point3.

Record t : Set := mk { x_ : float; y_ : float; z_ : float }.

Definition dimension : nat := 3.

(** [Point3()] *)
Definition default : t := mk 0 0 0.

(** [Point3(const Vector& v) : x_(v(0)), y_(v(1)), z_(v(2))] *)
Definition of_Vector (v : Vector) : result t :=
  let* a := vget v 0 in
  let* b := vget v 1 in
  let* c := vget v 2 in
  ok (mk a b c).

Definition Dim : nat := dimension.
Definition dim (p : t) : nat := dimension.

Definition x (p : t) : float := x_ p.
Definition y (p : t) : float := y_ p.
Definition z (p : t) : float := z_ p.

(** [Vector v(3); v(0)=x_; v(1)=y_; v(2)=z_;] *)
Definition vector (p : t) : Vector := [x_ p; y_ p; z_ p].

(** Unary [operator-] *)
Definition neg (p : t) : t := mk (- x_ p) (- y_ p) (- z_ p).

(** Modelled from the spec: the binary [operator+] of Point3 is declared
    in Point3.h and defined outside src/; it adds component-wise. *)
Definition add (p q : t) : t := mk (x_ p + x_ q) (y_ p + y_ q) (z_ p + z_ q).

Definition inverse (p : t) : t := mk (- x_ p) (- y_ p) (- z_ p).

(** Member [compose]: [*this+p1] *)
Definition compose (p p1 : t) : t := add p p1.

Definition Expmap (v : Vector) : result t := of_Vector v.

Definition Logmap (dp : t) : Vector := Vector_ 3 [x dp; y dp; z dp].

(** Modelled from the spec: [Point3::equals] is declared in Point3.h and
    defined outside src/; all corresponding fields differ by less than
    the tolerance in absolute value. *)
Definition equals (p q : t) (tol : float) : bool :=
  (abs (x_ p - x_ q) <? tol)%float && (abs (y_ p - y_ q) <? tol)%float
  && (abs (z_ p - z_ q) <? tol)%float.

#[global] Instance Lie_ops : Lie.ops t := {|
  Lie.dim := dim;
  Lie.compose_member := compose;
  Lie.inverse := inverse;
  Lie.Expmap := Expmap;
  Lie.Logmap := Logmap
|}.

Definition Dcompose1 (p1 p0 : t) : Matrix :=
  Matrix_ 3 3 [1; 0; 0; 0; 1; 0; 0; 0; 1]%float.
Definition Dcompose2 (p1 p0 : t) : Matrix :=
  Matrix_ 3 3 [1; 0; 0; 0; 1; 0; 0; 0; 1]%float.

Definition finite (p : t) : bool :=
  is_finite (x_ p) && is_finite (y_ p) && is_finite (z_ p).

Definition small_ints (p : t) : bool :=
  small_int (x_ p) && small_int (y_ p) && small_int (z_ p).

End Point3.

(** ** StereoPoint2 *)

Module StereoPoint2.

Record t : Set := mk { uL_ : float; uR_ : float; v_ : float }.

Definition dimension : nat := 3.

(** [StereoPoint2()] *)
Definition default : t := mk 0 0 0.

(** [fabs(uL_ - q.uL_) < tol && fabs(uR_ - q.uR_) < tol && fabs(v_ - q.v_) < tol] *)
Definition equals (p q : t) (tol : float) : bool :=
  (abs (uL_ p - uL_ q) <? tol)%float && (abs (uR_ p - uR_ q) <? tol)%float
  && (abs (v_ p - v_ q) <? tol)%float.

Definition Dim : nat := dimension.
Definition dim (p : t) : nat := dimension.

Definition vector (p : t) : Vector := Vector_ 3 [uL_ p; uR_ p; v_ p].

(** [operator+], [operator-] *)
Definition add (a b : t) : t := mk (uL_ a + uL_ b) (uR_ a + uR_ b) (v_ a + v_ b).
Definition sub (a b : t) : t := mk (uL_ a - uL_ b) (uR_ a - uR_ b) (v_ a - v_ b).

Definition point2 (p : t) : Point2.t := Point2.mk (uL_ p) (v_ p).

(** Member [compose]: [*this + p1] *)
Definition compose (p p1 : t) : t := add p p1.

(** The default point minus this one *)
Definition inverse (p : t) : t := sub default p.

(** [StereoPoint2(d(0), d(1), d(2))] *)
Definition Expmap (d : Vector) : result t :=
  let* a := vget d 0 in
  let* b := vget d 1 in
  let* c := vget d 2 in
  ok (mk a b c).

Definition Logmap (p : t) : Vector := vector p.

#[global] Instance Lie_ops : Lie.ops t := {|
  Lie.dim := dim;
  Lie.compose_member := compose;
  Lie.inverse := inverse;
  Lie.Expmap := Expmap;
  Lie.Logmap := Logmap
|}.

Definition finite (p : t) : bool :=
  is_finite (uL_ p) && is_finite (uR_ p) && is_finite (v_ p).

Definition small_ints (p : t) : bool :=
  small_int (uL_ p) && small_int (uR_ p) && small_int (v_ p).

(** No coordinate is negative zero. *)
Definition no_neg_zero (p : t) : bool :=
  negb (is_neg_zero (uL_ p)) && negb (is_neg_zero (uR_ p))
  && negb (is_neg_zero (v_ p)).

(** Some coordinate is NaN. *)
Definition has_nan (p : t) : bool :=
  is_nan (uL_ p) || is_nan (uR_ p) || is_nan (v_ p).

End StereoPoint2.

(** * Properties *)

(** ** Binary64 arithmetic: special values *)

Lemma SFcompare_refl_finite s m e :
  SFcompare (S754_finite s m e) (S754_finite s m e) = Some Eq.
Proof.
  simpl. rewrite Z.compare_refl, Pos.compare_cont_refl. now destruct s.
Qed.

Lemma is_nan_spec x :
  is_nan x = match Prim2SF x with S754_nan => true | _ => false end.
Proof.
  unfold is_nan. rewrite FloatAxioms.eqb_spec. unfold SFeqb.
  destruct (Prim2SF x) as [s|s| |s m e]; try reflexivity; try (now destruct s).
  now rewrite SFcompare_refl_finite.
Qed.

Lemma is_infinity_spec x :
  is_infinity x = match Prim2SF x with S754_infinity _ => true | _ => false end.
Proof.
  unfold is_infinity. rewrite FloatAxioms.eqb_spec, abs_spec.
  change (Prim2SF infinity) with (S754_infinity false).
  now destruct (Prim2SF x) as [s|s| |s m e].
Qed.

Lemma is_finite_spec x : is_finite x = SFfinite (Prim2SF x).
Proof.
  unfold is_finite. rewrite is_nan_spec, is_infinity_spec.
  now destruct (Prim2SF x).
Qed.

(** Two doubles with the same specification value are the same double. *)
Ltac float_ext := apply Prim2SF_inj; rewrite ?add_spec, ?sub_spec, ?opp_spec.

Lemma SFadd_comm x y : SF64add x y = SF64add y x.
Proof.
  unfold SF64add.
  destruct x as [sx|sx| |sx mx ex], y as [sy|sy| |sy my ey]; simpl;
    try reflexivity; try (now destruct sx, sy).
  now rewrite Z.min_comm, Z.add_comm.
Qed.

(** Addition of doubles is commutative, also on infinities and NaN. *)
Lemma add_comm (x y : float) : (x + y = y + x)%float.
Proof. float_ext. apply SFadd_comm. Qed.

Lemma SFadd_opp_finite X :
  SFfinite X = true -> SF64add X (SFopp X) = S754_zero false.
Proof.
  destruct X as [s|s| |s m e]; simpl; try discriminate; intros _.
  - now destruct s.
  - rewrite Z.min_id.
    destruct s; simpl; [rewrite Z.add_opp_diag_l | rewrite Z.add_opp_diag_r];
      reflexivity.
Qed.

Lemma add_opp_finite (x : float) : is_finite x = true -> (x + - x = 0)%float.
Proof.
  rewrite is_finite_spec. intros H. float_ext. now apply SFadd_opp_finite.
Qed.

Lemma SFsub_diag_finite X :
  SFfinite X = true -> SF64sub X X = S754_zero false.
Proof.
  destruct X as [s|s| |s m e]; simpl; try discriminate; intros _.
  - now destruct s.
  - now rewrite Z.sub_diag.
Qed.

Lemma sub_diag_finite (x : float) : is_finite x = true -> (x - x = 0)%float.
Proof.
  rewrite is_finite_spec. intros H. float_ext. now apply SFsub_diag_finite.
Qed.

Lemma SFadd_zero_sub_finite X :
  SFfinite X = true ->
  SF64add X (SF64sub (S754_zero false) X) = S754_zero false.
Proof.
  destruct X as [s|s| |s m e]; simpl; try discriminate; intros _.
  - now destruct s.
  - rewrite Z.min_id.
    destruct s; simpl; [rewrite Z.add_opp_diag_l | rewrite Z.add_opp_diag_r];
      reflexivity.
Qed.

Lemma add_zero_sub_finite (x : float) :
  is_finite x = true -> (x + (0 - x) = 0)%float.
Proof.
  rewrite is_finite_spec. intros H. float_ext.
  now apply SFadd_zero_sub_finite.
Qed.

(** No absolute value is below a zero tolerance. *)
Lemma abs_ltb_zero (d tol : float) :
  (tol =? 0)%float = true -> (abs d <? tol)%float = false.
Proof.
  rewrite FloatAxioms.eqb_spec, ltb_spec, abs_spec.
  change (Prim2SF 0) with (S754_zero false).
  unfold SFeqb, SFltb.
  destruct (Prim2SF tol) as [st|st| |st mt et]; simpl; try discriminate;
    try (now destruct st).
  intros _. now destruct (Prim2SF d) as [s|s| |s m e].
Qed.

Lemma abs_sub_diag_ltb (x tol : float) :
  is_finite x = true -> (0 <? tol)%float = true ->
  (abs (x - x) <? tol)%float = true.
Proof.
  intros Hx Htol. now rewrite (sub_diag_finite x Hx).
Qed.

Lemma eqb_refl_not_nan (x : float) : (x =? x)%float = negb (is_nan x).
Proof. unfold is_nan. now rewrite negb_involutive. Qed.

(** ** Binary64 arithmetic: sums of small integers are exact *)

Ltac pow_bounds :=
  change (2 ^ 53)%Z with 9007199254740992%Z in *;
  change (2 ^ 51)%Z with 2251799813685248%Z in *; lia.

Section Rounding.

Local Open Scope Z_scope.

Lemma digits2_pos_size m : digits2_pos m = Pos.size m.
Proof. induction m as [m IH|m IH|]; simpl; now rewrite ?IH. Qed.

Lemma digits2_pos_bounds m :
  2 ^ (Z.pos (digits2_pos m) - 1) <= Z.pos m < 2 ^ Z.pos (digits2_pos m).
Proof.
  rewrite digits2_pos_size. split.
  - pose proof (Pos.size_le m) as H.
    apply Pos2Z.pos_le_pos in H. rewrite Pos2Z.inj_pow in H.
    replace (Z.pos (Pos.size m)) with (Z.succ (Z.pos (Pos.size m) - 1)) in H by lia.
    rewrite Z.pow_succ_r in H by lia. lia.
  - pose proof (Pos.size_gt m) as H.
    apply Pos2Z.pos_lt_pos in H. now rewrite Pos2Z.inj_pow in H.
Qed.

Lemma digits2_pos_unique m d :
  2 ^ (d - 1) <= Z.pos m < 2 ^ d -> Z.pos (digits2_pos m) = d.
Proof.
  intros [Hlo Hhi]. destruct (digits2_pos_bounds m) as [Hlo' Hhi'].
  assert (0 < d).
  { destruct (Z.lt_trichotomy d 0) as [Hd|[Hd|Hd]]; try assumption.
    - rewrite Z.pow_neg_r in Hhi by assumption. lia.
    - subst d. simpl in Hhi. lia. }
  assert (d - 1 < Z.pos (digits2_pos m)).
  { apply (Z.pow_lt_mono_r_iff 2); lia. }
  assert (Z.pos (digits2_pos m) - 1 < d).
  { apply (Z.pow_lt_mono_r_iff 2); lia. }
  lia.
Qed.

Lemma digits2_pos_shift m m' j :
  0 <= j -> Z.pos m' = Z.pos m * 2 ^ j ->
  Z.pos (digits2_pos m') = Z.pos (digits2_pos m) + j.
Proof.
  intros Hj Hm. apply digits2_pos_unique. rewrite Hm.
  destruct (digits2_pos_bounds m) as [Hlo Hhi].
  replace (Z.pos (digits2_pos m) + j - 1) with (Z.pos (digits2_pos m) - 1 + j) by lia.
  rewrite !Z.pow_add_r by lia.
  assert (0 < 2 ^ j) by (apply Z.pow_pos_nonneg; lia).
  split; nia.
Qed.

Lemma digits2_pos_le_53 q : Z.pos q < 2 ^ 53 -> Z.pos (digits2_pos q) <= 53.
Proof.
  intros Hq. destruct (digits2_pos_bounds q) as [Hlo _].
  assert (Z.pos (digits2_pos q) - 1 < 53); [|lia].
  apply (Z.pow_lt_mono_r_iff 2); lia.
Qed.

Lemma iter_pos_iter {A : Type} (f : A -> A) p x :
  SpecFloat.iter_pos f p x = Pos.iter f x p.
Proof.
  revert x. induction p as [p IH|p IH|]; intros x; simpl.
  - now rewrite !IH, !Pos.iter_swap.
  - now rewrite !IH.
  - reflexivity.
Qed.

(** Shifting out zero bits loses nothing: the record stays exact. *)
Lemma iter_shr_1_exact p : forall m m',
  Z.pos m' = Z.pos m * 2 ^ Z.pos p ->
  Pos.iter shr_1 (Build_shr_record (Z.pos m') false false) p
  = Build_shr_record (Z.pos m) false false.
Proof.
  induction p as [|p IH] using Pos.peano_ind; intros m m' Hm.
  - assert (m' = m~0)%positive by lia. subst m'. reflexivity.
  - rewrite Pos.iter_succ_r.
    rewrite Pos2Z.inj_succ, Z.pow_succ_r in Hm by lia.
    destruct m' as [m'|m'|]; try lia.
    change (shr_1 (Build_shr_record (Z.pos m'~0) false false))
      with (Build_shr_record (Z.pos m') false false).
    apply IH. lia.
Qed.

Lemma shift_pos_Z m d : Z.pos (Pos.iter xO m d) = Z.pos m * 2 ^ Z.pos d.
Proof.
  change (Pos.iter xO m d) with (shift_pos d m).
  rewrite shift_pos_correct. change (Z.pow_pos 2 d) with (2 ^ Z.pos d). lia.
Qed.

Lemma shl_align_fst m e ez :
  ez <= e -> Z.pos (fst (shl_align m e ez)) = Z.pos m * 2 ^ (e - ez).
Proof.
  intros Hle. unfold shl_align.
  destruct (ez - e) as [|d|d] eqn:Hd; try lia; cbn [fst].
  - replace (e - ez) with 0 by lia. simpl. lia.
  - rewrite shift_pos_Z. f_equal. f_equal. lia.
Qed.

(** A canonical normal mantissa is left unchanged by rounding. *)
Lemma binary_round_aux_canonical s m e :
  Z.pos (digits2_pos m) = 53 -> -1074 <= e <= 971 ->
  binary_round_aux prec emax s (Z.pos m) e loc_Exact = S754_finite s m e.
Proof.
  intros Hd He.
  unfold binary_round_aux, shr_fexp, fexp, Zdigits2.
  change (SpecFloat.emin prec emax) with (-1074). change prec with 53.
  rewrite Hd.
  replace (Z.max (53 + e - 53) (-1074) - e) with 0 by lia.
  cbn [shr shr_record_of_loc shr_m loc_of_shr_record round_nearest_even].
  rewrite Hd.
  replace (Z.max (53 + e - 53) (-1074) - e) with 0 by lia.
  cbn [shr shr_record_of_loc shr_m].
  change emax with 1024.
  replace (e <=? 1024 - 53) with true by (symmetry; apply Z.leb_le; lia).
  reflexivity.
Qed.

(** Rounding a mantissa and exponent whose value a normal double has is
    exact: the result is that double. *)
Lemma binary_round_exact s m e m' e' :
  Z.pos (digits2_pos m') = 53 -> -1074 <= e' <= 971 ->
  (e' <= e /\ Z.pos m' = Z.pos m * 2 ^ (e - e')) \/
  (e <= e' /\ Z.pos m = Z.pos m' * 2 ^ (e' - e)) ->
  binary_round prec emax s m e = S754_finite s m' e'.
Proof.
  intros Hd He' H.
  unfold binary_round.
  assert (Hf : fexp prec emax (Z.pos (digits2_pos m) + e) = e').
  { unfold fexp. change (SpecFloat.emin prec emax) with (-1074). change prec with 53.
    destruct H as [[Hle Hm]|[Hle Hm]].
    - pose proof (digits2_pos_shift m m' (e - e') ltac:(lia) Hm). lia.
    - pose proof (digits2_pos_shift m' m (e' - e) ltac:(lia) Hm). lia. }
  rewrite Hf. unfold shl_align.
  destruct (Z.compare_spec e' e) as [Heq|Hlt|Hgt].
  - replace (e' - e) with 0 by lia.
    assert (m = m').
    { destruct H as [[_ Hm]|[_ Hm]];
        [replace (e - e') with 0 in Hm by lia | replace (e' - e) with 0 in Hm by lia];
        simpl in Hm; lia. }
    subst m'. rewrite <- Heq. now apply binary_round_aux_canonical.
  - destruct H as [[_ Hm]|[Hle _]]; [|lia].
    destruct (e' - e) as [|d|d] eqn:Hd'; try lia.
    replace (Pos.iter xO m d) with m'.
    + now apply binary_round_aux_canonical.
    + apply Pos2Z.inj. rewrite shift_pos_Z, Hm. f_equal. f_equal. lia.
  - destruct H as [[Hle _]|[_ Hm]]; [lia|].
    destruct (e' - e) as [|d|d] eqn:Hd'; try lia.
    unfold binary_round_aux, shr_fexp. cbn [Zdigits2]. rewrite Hf.
    replace (e' - e) with (Z.pos d) by lia.
    cbn [shr shr_record_of_loc].
    rewrite iter_pos_iter, (iter_shr_1_exact d m' m) by (rewrite Hm; f_equal; f_equal; lia).
    cbn [shr_m loc_of_shr_record round_nearest_even Zdigits2].
    replace (e + Z.pos d) with e' by lia.
    unfold fexp. change (SpecFloat.emin prec emax) with (-1074). change prec with 53.
    rewrite Hd.
    replace (Z.max (53 + e' - 53) (-1074) - e') with 0 by lia.
    cbn [shr shr_record_of_loc shr_m].
    change emax with 1024.
    replace (e' <=? 1024 - 53) with true by (symmetry; apply Z.leb_le; lia).
    reflexivity.
Qed.

(** The double of a positive integer below 2^53: its mantissa is the
    integer shifted to 53 bits. *)
Lemma binary_round_int q :
  Z.pos q < 2 ^ 53 ->
  exists m e, Z.pos (digits2_pos m) = 53 /\ -52 <= e <= 0 /\
              Z.pos m = Z.pos q * 2 ^ (- e) /\
              forall s, binary_round prec emax s q 0 = S754_finite s m e.
Proof.
  intros Hq. pose proof (digits2_pos_le_53 q Hq) as Hd.
  set (k := 53 - Z.pos (digits2_pos q)).
  assert (Hk : 0 <= k <= 52) by lia.
  assert (Hpos : 0 < Z.pos q * 2 ^ k).
  { assert (0 < 2 ^ k) by (apply Z.pow_pos_nonneg; lia). lia. }
  exists (Z.to_pos (Z.pos q * 2 ^ k)), (- k).
  assert (Hm : Z.pos (Z.to_pos (Z.pos q * 2 ^ k)) = Z.pos q * 2 ^ k)
    by (apply Z2Pos.id; exact Hpos).
  assert (Hdm : Z.pos (digits2_pos (Z.to_pos (Z.pos q * 2 ^ k))) = 53).
  { rewrite (digits2_pos_shift q _ k) by (lia || exact Hm). lia. }
  repeat split; try lia.
  - rewrite Hm. f_equal. f_equal. lia.
  - intros s. apply binary_round_exact; try lia.
    left. split; [lia|]. rewrite Hm. f_equal. f_equal. lia.
Qed.

Lemma Zfloat_finite a :
  a <> 0 -> Z.abs a < 2 ^ 53 ->
  exists m e, Zfloat a = S754_finite (a <? 0) m e /\
              Z.pos (digits2_pos m) = 53 /\ -52 <= e <= 0 /\
              Z.pos m = Z.abs a * 2 ^ (- e).
Proof.
  intros Ha Hb. destruct a as [|q|q]; [congruence| |];
    destruct (binary_round_int q Hb) as (m & e & Hd & He & Hm & Hr);
    exists m, e; unfold Zfloat, binary_normalize; now rewrite Hr.
Qed.

Lemma Zfloat_opp b :
  b <> 0 -> Z.abs b < 2 ^ 53 -> SFopp (Zfloat b) = Zfloat (- b).
Proof.
  intros Hb0 Hb. destruct b as [|q|q]; [congruence| |];
    destruct (binary_round_int q Hb) as (m & e & _ & _ & _ & Hr);
    unfold Zfloat, Z.opp; cbn [binary_normalize]; now rewrite !Hr.
Qed.

(** Normalising [n * 2^k] at exponent [-k] gives the double of [n]. *)
Lemma binary_normalize_scale n ez :
  Z.abs n < 2 ^ 53 -> -1074 <= ez <= 0 ->
  binary_normalize prec emax (n * 2 ^ (- ez)) ez false = Zfloat n.
Proof.
  intros Hn Hez.
  assert (Hp : 0 < 2 ^ (- ez)) by (apply Z.pow_pos_nonneg; lia).
  destruct n as [|q|q]; [reflexivity| |];
    destruct (binary_round_int q Hn) as (m & e & Hd & He & Hm & Hr);
    unfold Zfloat; cbn [binary_normalize]; rewrite Hr.
  - destruct (Z.pos q * 2 ^ (- ez)) as [|p|p] eqn:Hqp; try lia.
    cbn [binary_normalize]. apply binary_round_exact; try lia.
    destruct (Z.le_ge_cases e ez) as [Hle|Hle]; [left|right]; (split; [lia|]);
      rewrite <- Hqp, Hm, <- Z.mul_assoc, <- Z.pow_add_r by lia;
      f_equal; f_equal; lia.
  - destruct (Z.neg q * 2 ^ (- ez)) as [|p|p] eqn:Hqp; try lia.
    cbn [binary_normalize]. apply binary_round_exact; try lia.
    assert (Hqp' : Z.pos p = Z.pos q * 2 ^ (- ez)) by lia.
    destruct (Z.le_ge_cases e ez) as [Hle|Hle]; [left|right]; (split; [lia|]);
      rewrite Hqp', Hm, <- Z.mul_assoc, <- Z.pow_add_r by lia;
      f_equal; f_equal; lia.
Qed.

Lemma cond_Zopp_abs a : cond_Zopp (a <? 0) (Z.abs a) = a.
Proof. unfold cond_Zopp. destruct (Z.ltb_spec a 0); lia. Qed.

Lemma cond_Zopp_mul s a b : cond_Zopp s (a * b) = cond_Zopp s a * b.
Proof. unfold cond_Zopp. destruct s; lia. Qed.

(** The signed mantissa of the double of [a], aligned to exponent [ez]. *)
Lemma aligned_mantissa a m e ez :
  Z.pos m = Z.abs a * 2 ^ (- e) -> ez <= e <= 0 ->
  cond_Zopp (a <? 0) (Z.pos (fst (shl_align m e ez))) = a * 2 ^ (- ez).
Proof.
  intros Hm He.
  rewrite shl_align_fst, Hm, <- Z.mul_assoc, <- Z.pow_add_r by lia.
  replace (- e + (e - ez)) with (- ez) by lia.
  now rewrite cond_Zopp_mul, cond_Zopp_abs.
Qed.

Lemma Zfloat_add a b :
  Z.abs a < 2 ^ 53 -> Z.abs b < 2 ^ 53 -> Z.abs (a + b) < 2 ^ 53 ->
  SF64add (Zfloat a) (Zfloat b) = Zfloat (a + b).
Proof.
  intros Ha Hb Hab.
  destruct (Z.eq_dec a 0) as [->|Ha0]; destruct (Z.eq_dec b 0) as [->|Hb0].
  - reflexivity.
  - rewrite Z.add_0_l.
    destruct (Zfloat_finite b Hb0 Hb) as (m & e & -> & _). reflexivity.
  - rewrite Z.add_0_r.
    destruct (Zfloat_finite a Ha0 Ha) as (m & e & -> & _). reflexivity.
  - destruct (Zfloat_finite a Ha0 Ha) as (ma & ea & -> & _ & Hea & Hma).
    destruct (Zfloat_finite b Hb0 Hb) as (mb & eb & -> & _ & Heb & Hmb).
    unfold SF64add, SFadd.
    rewrite (aligned_mantissa a ma ea), (aligned_mantissa b mb eb)
      by (assumption || lia).
    rewrite <- Z.mul_add_distr_r.
    apply binary_normalize_scale; lia.
Qed.

Lemma Zfloat_sub a b :
  Z.abs a < 2 ^ 53 -> Z.abs b < 2 ^ 53 -> Z.abs (a - b) < 2 ^ 53 ->
  SF64sub (Zfloat a) (Zfloat b) = Zfloat (a - b).
Proof.
  intros Ha Hb Hab.
  destruct (Z.eq_dec a 0) as [->|Ha0]; destruct (Z.eq_dec b 0) as [->|Hb0].
  - reflexivity.
  - rewrite Z.sub_0_l, <- (Zfloat_opp b Hb0 Hb).
    destruct (Zfloat_finite b Hb0 Hb) as (m & e & -> & _). reflexivity.
  - rewrite Z.sub_0_r.
    destruct (Zfloat_finite a Ha0 Ha) as (m & e & -> & _). reflexivity.
  - destruct (Zfloat_finite a Ha0 Ha) as (ma & ea & -> & _ & Hea & Hma).
    destruct (Zfloat_finite b Hb0 Hb) as (mb & eb & -> & _ & Heb & Hmb).
    unfold SF64sub, SFsub.
    rewrite (aligned_mantissa a ma ea), (aligned_mantissa b mb eb)
      by (assumption || lia).
    rewrite <- Z.mul_sub_distr_r.
    apply binary_normalize_scale; lia.
Qed.

(** A valid double that denotes the integer [n] is the double of [n]. *)
Lemma SFto_Z_Zfloat X n :
  valid_binary X = true -> SFto_Z X = Some n -> Z.abs n < 2 ^ 53 ->
  X = Zfloat n.
Proof.
  intros Hv Hn Hb. destruct X as [[|]| | |s m e]; try discriminate.
  - now injection Hn as <-.
  - cbn [SFto_Z] in Hn.
    destruct (Z.leb_spec e 0) as [He|He]; [|discriminate].
    destruct (Z.eqb_spec (Z.pos m mod 2 ^ (- e)) 0) as [Hmod|Hmod]; [|discriminate].
    cbn [andb] in Hn. injection Hn as <-.
    assert (Hp : 0 < 2 ^ (- e)) by (apply Z.pow_pos_nonneg; lia).
    assert (Hm : Z.pos m = Z.pos m / 2 ^ (- e) * 2 ^ (- e)).
    { rewrite (Z.div_mod (Z.pos m) (2 ^ (- e))) at 1 by lia. lia. }
    destruct (Z.pos m / 2 ^ (- e)) as [|q|q] eqn:Hq; try lia.
    assert (Hq53 : Z.pos q < 2 ^ 53) by (destruct s; simpl in Hb; lia).
    pose proof (digits2_pos_shift q m (- e) ltac:(lia) Hm) as Hdm.
    pose proof (digits2_pos_le_53 q Hq53) as Hdq.
    cbn [valid_binary] in Hv. unfold bounded, canonical_mantissa, fexp in Hv.
    apply andb_true_iff in Hv. destruct Hv as [Hc Hbd].
    apply Z.eqb_eq in Hc. apply Z.leb_le in Hbd.
    change (SpecFloat.emin prec emax) with (-1074) in Hc.
    change prec with 53 in Hc, Hbd. change emax with 1024 in Hbd.
    assert (Z.pos (digits2_pos m) = 53 /\ -1074 <= e) as [Hd53 Hemin] by lia.
    unfold Zfloat. symmetry.
    destruct s; cbn [cond_Zopp Z.opp binary_normalize];
      apply binary_round_exact; try lia;
      left; (split; [lia|]); rewrite Z.sub_0_l; exact Hm.
Qed.

End Rounding.

Lemma small_int_spec x :
  small_int x = true ->
  exists n, (Z.abs n <= 2 ^ 51)%Z /\ Prim2SF x = Zfloat n.
Proof.
  unfold small_int. destruct (SFto_Z (Prim2SF x)) as [n|] eqn:Hn; [|discriminate].
  intros Hb. apply Z.leb_le in Hb. exists n. split; [exact Hb|].
  apply SFto_Z_Zfloat; [apply Prim2SF_valid|exact Hn|pow_bounds].
Qed.

Lemma add_Zfloat x y a b :
  Prim2SF x = Zfloat a -> Prim2SF y = Zfloat b ->
  (Z.abs a < 2 ^ 53)%Z -> (Z.abs b < 2 ^ 53)%Z -> (Z.abs (a + b) < 2 ^ 53)%Z ->
  Prim2SF (x + y)%float = Zfloat (a + b).
Proof.
  intros Hx Hy Ha Hb Hab. rewrite add_spec, Hx, Hy. now apply Zfloat_add.
Qed.

Lemma sub_Zfloat x y a b :
  Prim2SF x = Zfloat a -> Prim2SF y = Zfloat b ->
  (Z.abs a < 2 ^ 53)%Z -> (Z.abs b < 2 ^ 53)%Z -> (Z.abs (a - b) < 2 ^ 53)%Z ->
  Prim2SF (x - y)%float = Zfloat (a - b).
Proof.
  intros Hx Hy Ha Hb Hab. rewrite sub_spec, Hx, Hy. now apply Zfloat_sub.
Qed.

(** On integers of magnitude at most 2^51 the additions do not round, so
    they associate. *)
Lemma add_assoc_small_int (x y z : float) :
  small_int x = true -> small_int y = true -> small_int z = true ->
  ((x + y) + z = x + (y + z))%float.
Proof.
  intros Hx Hy Hz.
  destruct (small_int_spec x Hx) as (a & Ha & Ex).
  destruct (small_int_spec y Hy) as (b & Hb & Ey).
  destruct (small_int_spec z Hz) as (c & Hc & Ez).
  apply Prim2SF_inj.
  rewrite (add_Zfloat (x + y) z (a + b) c), (add_Zfloat x (y + z) a (b + c));
    try assumption; try (apply add_Zfloat; try assumption); try pow_bounds.
  f_equal. lia.
Qed.

Lemma add_sub_small_int (x y : float) :
  small_int x = true -> small_int y = true -> (x + (y - x) = y)%float.
Proof.
  intros Hx Hy.
  destruct (small_int_spec x Hx) as (a & Ha & Ex).
  destruct (small_int_spec y Hy) as (b & Hb & Ey).
  apply Prim2SF_inj.
  rewrite (add_Zfloat x (y - x) a (b - a));
    try assumption; try (apply sub_Zfloat; try assumption); try pow_bounds.
  rewrite Ey. f_equal. lia.
Qed.

Example small_int_3 : small_int 3 = true.
Proof. vm_compute. reflexivity. Qed.

Example small_int_neg7 : small_int (-7) = true.
Proof. vm_compute. reflexivity. Qed.

Example small_int_half : small_int 0.5 = false.
Proof. vm_compute. reflexivity. Qed.

Example small_int_neg_zero : small_int (-0) = false.
Proof. vm_compute. reflexivity. Qed.

Example small_int_bound : small_int 2251799813685248 = true.
Proof. vm_compute. reflexivity. Qed.

Example small_int_above_bound : small_int 2251799813685249 = false.
Proof. vm_compute. reflexivity. Qed.

Example small_int_infinity : small_int infinity = false.
Proof. vm_compute. reflexivity. Qed.

(** ** Vectors, matrices and output slots *)

Lemma eye_2 : eye 2 = [[1; 0]; [0; 1]]%float.
Proof. reflexivity. Qed.

Lemma eye_3 : eye 3 = [[1; 0; 0]; [0; 1; 0]; [0; 0; 1]]%float.
Proof. reflexivity. Qed.

(** [eye n] has 1 on the diagonal and 0 elsewhere, for every [n]. *)
Lemma mat_entry_eye (n i j : nat) :
  (i < n)%nat -> (j < n)%nat ->
  mat_entry (eye n) i j = Some (if Nat.eqb i j then 1%float else 0%float).
Proof.
  intros Hi Hj. unfold mat_entry, eye.
  rewrite nth_error_map, nth_error_seq.
  destruct (Nat.ltb_spec i n) as [_|]; [|lia]. cbn [option_map].
  rewrite nth_error_map, nth_error_seq.
  destruct (Nat.ltb_spec j n) as [_|]; [|lia]. reflexivity.
Qed.

Lemma written_assign_if (H : slot) (M : Matrix) (l : loc) :
  In l (written (assign_if H M)) <-> H = Some l.
Proof.
  destruct H as [l'|]; simpl.
  - split; [intros [->|[]]; reflexivity | intros [= ->]; now left].
  - split; [intros [] | discriminate].
Qed.

Lemma written_app (w1 w2 : writes) (l : loc) :
  In l (written (w1 ++ w2)) <-> In l (written w1) \/ In l (written w2).
Proof. unfold written. rewrite map_app. apply in_app_iff. Qed.

(** Writes leave every other location of the store as it was. *)
Lemma apply_writes_frame (ws : writes) : forall (st : gmap nat Matrix) (l : loc),
  ~ In l (written ws) -> apply_writes ws st !! l = st !! l.
Proof.
  induction ws as [|[l' M] ws IH]; intros st l Hl; simpl.
  - reflexivity.
  - rewrite IH by (intros H; apply Hl; now right).
    apply lookup_insert_ne. intros ->. apply Hl. now left.
Qed.

(** ** Construction from a coordinate vector *)

Example Expmap_1_2 : Point2.Expmap [1; 2]%float = ok (Point2.mk 1 2).
Proof. reflexivity. Qed.

Example Logmap_1_2 : Point2.Logmap (Point2.mk 1 2) = [1; 2]%float.
Proof. reflexivity. Qed.

(** C1, as stated, fails: a length-3 vector does not have the dimension
    of Point2, and constructing a Point2 from it (also through Expmap)
    succeeds with the first two entries instead of failing with
    InvalidDimension. *)
Lemma Point2_of_length_3_vector :
  length [1; 2; 3]%float <> Point2.dimension /\
  Point2.of_Vector [1; 2; 3]%float = ok (Point2.mk 1 2) /\
  Point2.Expmap [1; 2; 3]%float = ok (Point2.mk 1 2) /\
  Point2.of_Vector [1; 2; 3]%float <> fail InvalidDimension.
Proof.
  repeat split; try reflexivity; [cbv; lia | discriminate].
Qed.

(** C1, amended: no constructor from a coordinate vector checks the
    length.  From a vector with at least as many entries as the dimension,
    construction (also through Expmap) succeeds and reads the leading
    entries in field order; later entries are ignored.  No vector makes a
    constructor fail with InvalidDimension. *)
Theorem of_Vector_reads_leading_entries :
  (forall (a b : float) (rest : Vector),
     Point2.of_Vector (a :: b :: rest) = ok (Point2.mk a b) /\
     Point2.Expmap (a :: b :: rest) = ok (Point2.mk a b)) /\
  (forall (a b c : float) (rest : Vector),
     Point3.of_Vector (a :: b :: c :: rest) = ok (Point3.mk a b c) /\
     Point3.Expmap (a :: b :: c :: rest) = ok (Point3.mk a b c)) /\
  (forall (a b c : float) (rest : Vector),
     StereoPoint2.Expmap (a :: b :: c :: rest) = ok (StereoPoint2.mk a b c)) /\
  (forall v : Vector,
     Point2.of_Vector v <> fail InvalidDimension /\
     Point3.of_Vector v <> fail InvalidDimension /\
     StereoPoint2.Expmap v <> fail InvalidDimension).
Proof.
  repeat split; try reflexivity.
  - destruct v as [|a [|b r]]; discriminate.
  - destruct v as [|a [|b [|c r]]]; discriminate.
  - destruct v as [|a [|b [|c r]]]; discriminate.
Qed.

(** In the model, a vector with fewer entries than the dimension makes
    the element read fail. *)
Lemma of_Vector_short (v : Vector) :
  (length v < Point2.dimension)%nat -> Point2.of_Vector v = fail BadIndex.
Proof.
  destruct v as [|a [|b r]]; simpl; intros H; try reflexivity.
  unfold Point2.dimension in H. lia.
Qed.

(** ** Point2::operator== *)

(** C2, as stated, fails: the two points have equal x and different y,
    and operator== returns false, because q.y is NaN and a NaN is not
    equal to itself. *)
Lemma operator_eq_false_on_nan_y :
  (Point2.x_ (Point2.mk 0 1) =? Point2.x_ (Point2.mk 0 nan))%float = true /\
  (Point2.y_ (Point2.mk 0 1) =? Point2.y_ (Point2.mk 0 nan))%float = false /\
  Point2.eq_op (Point2.mk 0 1) (Point2.mk 0 nan) = false.
Proof. repeat split. Qed.

(** C2, amended: operator== never looks at the y coordinate of its left
    operand.  Its second conjunct compares q.y_ with itself, which is true
    unless q.y_ is NaN: operator== returns true exactly when the x
    coordinates are equal and q.y_ is not NaN, whatever the y coordinate
    of the left operand is. *)
Theorem operator_eq_compares_x_only :
  (forall p q : Point2.t,
     Point2.eq_op p q
     = (Point2.x_ p =? Point2.x_ q)%float && negb (is_nan (Point2.y_ q))) /\
  (forall (p q : Point2.t) (y' : float),
     Point2.eq_op (Point2.mk (Point2.x_ p) y') q = Point2.eq_op p q).
Proof.
  split.
  - intros p q. unfold Point2.eq_op. now rewrite eqb_refl_not_nan.
  - intros p q y'. reflexivity.
Qed.

Example operator_eq_different_y :
  Point2.eq_op (Point2.mk 1 2) (Point2.mk 1 3) = true.
Proof. reflexivity. Qed.

(** ** Expmap and Logmap *)

(** C4: for every vector of the type's dimension, Logmap after Expmap
    gives the vector back, and for every point, Expmap after Logmap gives
    the point back, for Point2, Point3 and StereoPoint2. *)
Theorem Expmap_Logmap_inverse :
  (forall v : Vector, length v = Point2.dimension ->
     (let* p := Point2.Expmap v in ok (Point2.Logmap p)) = ok v) /\
  (forall p : Point2.t, Point2.Expmap (Point2.Logmap p) = ok p) /\
  (forall v : Vector, length v = Point3.dimension ->
     (let* p := Point3.Expmap v in ok (Point3.Logmap p)) = ok v) /\
  (forall p : Point3.t, Point3.Expmap (Point3.Logmap p) = ok p) /\
  (forall v : Vector, length v = StereoPoint2.dimension ->
     (let* p := StereoPoint2.Expmap v in ok (StereoPoint2.Logmap p)) = ok v) /\
  (forall p : StereoPoint2.t,
     StereoPoint2.Expmap (StereoPoint2.Logmap p) = ok p).
Proof.
  repeat split.
  - intros v Hv. destruct v as [|a [|b [|c r]]]; try discriminate. reflexivity.
  - intros [a b]. reflexivity.
  - intros v Hv. destruct v as [|a [|b [|c [|d r]]]]; try discriminate. reflexivity.
  - intros [a b c]. reflexivity.
  - intros v Hv. destruct v as [|a [|b [|c [|d r]]]]; try discriminate. reflexivity.
  - intros [a b c]. reflexivity.
Qed.

(** The round trip on the vector (1, 2), which has the dimension of
    Point2. *)
Lemma Expmap_Logmap_inverse_witness :
  length [1; 2]%float = Point2.dimension /\
  (let* p := Point2.Expmap [1; 2]%float in ok (Point2.Logmap p)) = ok [1; 2]%float.
Proof.
  split; [reflexivity|].
  apply (proj1 Expmap_Logmap_inverse). reflexivity.
Defined.

(** ** StereoPoint2::point2 *)

(** C10: point2() of the stereo point (uL, uR, v) is the Point2 (uL, v);
    the right-image coordinate uR is discarded.  In particular
    StereoPoint2(10, 8, 5).point2() is Point2(10, 5). *)
Theorem point2_drops_uR :
  (forall uL uR v : float,
     StereoPoint2.point2 (StereoPoint2.mk uL uR v) = Point2.mk uL v) /\
  (forall (p : StereoPoint2.t) (uR' : float),
     StereoPoint2.point2
       (StereoPoint2.mk (StereoPoint2.uL_ p) uR' (StereoPoint2.v_ p))
     = StereoPoint2.point2 p) /\
  StereoPoint2.point2 (StereoPoint2.mk 10 8 5) = Point2.mk 10 5.
Proof. repeat split. Qed.

(** ** Equality with tolerance *)

Ltac split_finite H :=
  repeat (apply andb_true_iff in H; let H' := fresh H in destruct H as [H H']).

(** C3, as stated, fails: 0 is a tolerance that is at least 0, p and p
    agree on all fields, and equals(p, p, 0) is false, because the
    comparison with the tolerance is strict. *)
Lemma equals_with_zero_tolerance :
  (0 <=? 0)%float = true /\
  StereoPoint2.equals (StereoPoint2.mk 1 2 3) (StereoPoint2.mk 1 2 3) 0 = false.
Proof. repeat split. Qed.

(** C3, amended: for every point p whose fields are finite and every
    tolerance tol > 0, equals(p, p, tol) is true; for a zero tolerance,
    equals(p, q, 0) is false for all p and q, also when all their fields
    are equal. *)
Theorem equals_reflexive_for_positive_tolerance :
  (forall (p : StereoPoint2.t) (tol : float),
     StereoPoint2.finite p = true -> (0 <? tol)%float = true ->
     StereoPoint2.equals p p tol = true) /\
  (forall (p q : StereoPoint2.t) (tol : float),
     (tol =? 0)%float = true -> StereoPoint2.equals p q tol = false) /\
  (forall (p : Point2.t) (tol : float),
     Point2.finite p = true -> (0 <? tol)%float = true ->
     Point2.equals p p tol = true) /\
  (forall (p q : Point2.t) (tol : float),
     (tol =? 0)%float = true -> Point2.equals p q tol = false) /\
  (forall (p : Point3.t) (tol : float),
     Point3.finite p = true -> (0 <? tol)%float = true ->
     Point3.equals p p tol = true) /\
  (forall (p q : Point3.t) (tol : float),
     (tol =? 0)%float = true -> Point3.equals p q tol = false).
Proof.
  repeat split.
  - intros p tol Hp Htol. unfold StereoPoint2.finite in Hp. split_finite Hp.
    unfold StereoPoint2.equals. now rewrite !abs_sub_diag_ltb.
  - intros p q tol Htol. unfold StereoPoint2.equals.
    now rewrite (abs_ltb_zero _ tol Htol).
  - intros p tol Hp Htol. unfold Point2.finite in Hp. split_finite Hp.
    unfold Point2.equals. now rewrite !abs_sub_diag_ltb.
  - intros p q tol Htol. unfold Point2.equals.
    now rewrite (abs_ltb_zero _ tol Htol).
  - intros p tol Hp Htol. unfold Point3.finite in Hp. split_finite Hp.
    unfold Point3.equals. now rewrite !abs_sub_diag_ltb.
  - intros p q tol Htol. unfold Point3.equals.
    now rewrite (abs_ltb_zero _ tol Htol).
Qed.

(** A finite stereo point and the tolerance 0.5. *)
Lemma equals_reflexive_witness :
  StereoPoint2.finite (StereoPoint2.mk 10 8 5) = true /\
  (0 <? 0.5)%float = true /\
  StereoPoint2.equals (StereoPoint2.mk 10 8 5) (StereoPoint2.mk 10 8 5) 0.5 = true.
Proof.
  split; [reflexivity|]. split; [reflexivity|].
  apply (proj1 equals_reflexive_for_positive_tolerance); reflexivity.
Defined.

(** ** The additive group: inverse *)

(** C5, as stated, fails: for the Point2 with an infinite x coordinate,
    p.compose(p.inverse()) has a NaN x coordinate; it is not the zero
    point, neither exactly nor within any tolerance. *)
Lemma compose_inverse_of_infinite_point :
  Point2.compose (Point2.mk infinity 0) (Point2.inverse (Point2.mk infinity 0))
  = Point2.mk nan 0 /\
  Point2.mk nan 0 <> Point2.default /\
  Point2.equals (Point2.mk nan 0) Point2.default infinity = false.
Proof.
  repeat split. intros H.
  apply (f_equal (fun p => is_nan (Point2.x_ p))) in H. discriminate H.
Qed.

(** C5, amended: for every point p whose coordinates are finite, of each
    of the three types, p.compose(p.inverse()) is exactly the all-zero
    identity value of the type. *)
Theorem compose_inverse_is_identity :
  (forall p : Point2.t, Point2.finite p = true ->
     Point2.compose p (Point2.inverse p) = Point2.default) /\
  (forall p : Point3.t, Point3.finite p = true ->
     Point3.compose p (Point3.inverse p) = Point3.default) /\
  (forall p : StereoPoint2.t, StereoPoint2.finite p = true ->
     StereoPoint2.compose p (StereoPoint2.inverse p) = StereoPoint2.default).
Proof.
  repeat split.
  - intros [a b] Hp. unfold Point2.finite in Hp. split_finite Hp. simpl in *.
    unfold Point2.compose, Point2.inverse, Point2.add, Point2.default. simpl.
    now rewrite !add_opp_finite.
  - intros [a b c] Hp. unfold Point3.finite in Hp. split_finite Hp. simpl in *.
    unfold Point3.compose, Point3.inverse, Point3.add, Point3.default. simpl.
    now rewrite !add_opp_finite.
  - intros [a b c] Hp. unfold StereoPoint2.finite in Hp. split_finite Hp. simpl in *.
    unfold StereoPoint2.compose, StereoPoint2.inverse, StereoPoint2.add,
      StereoPoint2.sub, StereoPoint2.default. simpl.
    now rewrite !add_zero_sub_finite.
Qed.

(** The finite point (1.5, -2). *)
Lemma compose_inverse_witness :
  Point2.finite (Point2.mk 1.5 (-2)) = true /\
  Point2.compose (Point2.mk 1.5 (-2)) (Point2.inverse (Point2.mk 1.5 (-2)))
  = Point2.default.
Proof.
  split; [reflexivity|].
  apply (proj1 compose_inverse_is_identity). reflexivity.
Defined.

(** ** Jacobians of compose and between *)

(** C6: whatever the two points are, Dcompose1 and Dcompose2 return the
    identity matrix (2x2 for Point2, 3x3 for Point3); the compose overload
    with output slots assigns the 2x2 identity to each slot it is given;
    the between overload assigns the negated 2x2 identity to its first slot
    and the 2x2 identity to its second. *)
Theorem Jacobians_of_compose_and_between :
  (forall p1 p0 : Point2.t,
     Point2.Dcompose1 p1 p0 = [[1; 0]; [0; 1]]%float /\
     Point2.Dcompose2 p1 p0 = [[1; 0]; [0; 1]]%float) /\
  (forall p1 p0 : Point3.t,
     Point3.Dcompose1 p1 p0 = [[1; 0; 0]; [0; 1; 0]; [0; 0; 1]]%float /\
     Point3.Dcompose2 p1 p0 = [[1; 0; 0]; [0; 1; 0]; [0; 0; 1]]%float) /\
  (forall (p1 p2 : Point2.t) (H1 H2 : slot),
     snd (Point2.compose_opt p1 p2 H1 H2)
     = assign_if H1 [[1; 0]; [0; 1]]%float ++ assign_if H2 [[1; 0]; [0; 1]]%float) /\
  (forall (p1 p2 : Point2.t) (H1 H2 : slot),
     snd (Point2.between_opt p1 p2 H1 H2)
     = assign_if H1 [[-1; -0]; [-0; -1]]%float ++ assign_if H2 [[1; 0]; [0; 1]]%float).
Proof. repeat split. Qed.

Example Dcompose1_away_from_identity :
  Point2.Dcompose1 (Point2.mk 3 (-4)) (Point2.mk 0.5 7) = eye 2.
Proof. reflexivity. Qed.

Example between_opt_both_slots :
  apply_writes (snd (Point2.between_opt (Point2.mk 1 2) (Point2.mk 4 6) (Some 0%nat) (Some 1%nat)))
               (∅ : gmap nat Matrix)
  = <[1%nat := [[1; 0]; [0; 1]]%float]> (<[0%nat := [[-1; -0]; [-0; -1]]%float]> ∅).
Proof. reflexivity. Qed.

(** C7: in the compose and between overloads with output slots, a matrix
    of the caller is written if and only if it was passed as a slot; every
    other matrix of the store is left as it was, nothing at all is written
    when no slot is passed, and the returned point is the same whether or
    not slots are passed. *)
Theorem Jacobian_slots_written_iff_supplied
    (p1 p2 : Point2.t) (H1 H2 : slot) (st : gmap nat Matrix) :
  (forall l : loc,
     In l (written (snd (Point2.compose_opt p1 p2 H1 H2)))
     <-> (H1 = Some l \/ H2 = Some l)) /\
  (forall l : loc, H1 <> Some l -> H2 <> Some l ->
     apply_writes (snd (Point2.compose_opt p1 p2 H1 H2)) st !! l = st !! l) /\
  snd (Point2.compose_opt p1 p2 None None) = [] /\
  fst (Point2.compose_opt p1 p2 H1 H2) = fst (Point2.compose_opt p1 p2 None None) /\
  (forall l : loc,
     In l (written (snd (Point2.between_opt p1 p2 H1 H2)))
     <-> (H1 = Some l \/ H2 = Some l)) /\
  (forall l : loc, H1 <> Some l -> H2 <> Some l ->
     apply_writes (snd (Point2.between_opt p1 p2 H1 H2)) st !! l = st !! l) /\
  snd (Point2.between_opt p1 p2 None None) = [] /\
  fst (Point2.between_opt p1 p2 H1 H2) = fst (Point2.between_opt p1 p2 None None).
Proof.
  assert (Hw : forall (M1 M2 : Matrix) (l : loc),
             In l (written (assign_if H1 M1 ++ assign_if H2 M2))
             <-> (H1 = Some l \/ H2 = Some l)).
  { intros M1 M2 l. now rewrite written_app, !written_assign_if. }
  repeat split; try (apply Hw); try reflexivity.
  - intros l Hl1 Hl2. apply apply_writes_frame. simpl.
    rewrite Hw. tauto.
  - intros l Hl1 Hl2. apply apply_writes_frame. simpl.
    rewrite Hw. tauto.
Qed.

(** Only slot 0 is passed: the matrix at location 1 is untouched. *)
Lemma Jacobian_slots_witness :
  apply_writes (snd (Point2.compose_opt (Point2.mk 1 2) (Point2.mk 3 4) (Some 0%nat) None))
               (<[1%nat := [[7]]%float]> ∅) !! 1%nat
  = Some [[7]]%float.
Proof.
  etransitivity.
  - apply (Jacobian_slots_written_iff_supplied
             (Point2.mk 1 2) (Point2.mk 3 4) (Some 0%nat) None);
      discriminate.
  - reflexivity.
Defined.

(** ** between *)

Example between_3_4 :
  Point2.between (Point2.mk 1 2) (Point2.mk 4 6) = Point2.mk 3 4.
Proof. reflexivity. Qed.

(** C8, as stated, fails: for p = (10^16, 0) and q = (1, 0) the
    difference q - p is rounded to (-10^16, 0), and composing it with p
    gives (0, 0), which is not q. *)
Lemma compose_between_rounds :
  Point2.between (Point2.mk 1e16 0) (Point2.mk 1 0) = Point2.mk (-1e16) 0 /\
  Point2.compose (Point2.mk 1e16 0)
                 (Point2.between (Point2.mk 1e16 0) (Point2.mk 1 0))
  = Point2.mk 0 0 /\
  (Point2.x_ (Point2.mk 0 0) =? Point2.x_ (Point2.mk 1 0))%float = false.
Proof. repeat split. Qed.

(** C8, amended: between(p, q) is q - p for all Point2 p and q;
    compose(p, between(p, q)) is q whenever all coordinates of p and q
    are integers of magnitude at most 2^51 (negative zero excluded), where
    neither the subtraction nor the addition rounds. *)
Theorem between_is_difference :
  (forall p q : Point2.t, Point2.between p q = Point2.sub q p) /\
  (forall p q : Point2.t,
     Point2.small_ints p = true -> Point2.small_ints q = true ->
     Point2.compose p (Point2.between p q) = q).
Proof.
  split; [reflexivity|].
  intros [a b] [c d] Hp Hq.
  unfold Point2.small_ints in Hp, Hq. split_finite Hp. split_finite Hq.
  simpl in *.
  unfold Point2.compose, Point2.between, Point2.add, Point2.sub. simpl.
  now rewrite !add_sub_small_int.
Qed.

(** The integer points (3, -7) and (10, 5). *)
Lemma between_is_difference_witness :
  Point2.small_ints (Point2.mk 3 (-7)) = true /\
  Point2.small_ints (Point2.mk 10 5) = true /\
  Point2.compose (Point2.mk 3 (-7))
                 (Point2.between (Point2.mk 3 (-7)) (Point2.mk 10 5))
  = Point2.mk 10 5.
Proof.
  split; [vm_compute; reflexivity|]. split; [vm_compute; reflexivity|].
  apply (proj2 between_is_difference); vm_compute; reflexivity.
Defined.

(** ** The additive group: commutativity and associativity *)

(** C9, as stated, fails: with p = (1, 0), q = (2^53, 0) and
    r = (-2^53, 0), the sum 1 + 2^53 is rounded to 2^53, so composing from
    the left gives (0, 0) and composing from the right gives (1, 0). *)
Lemma compose_not_associative :
  Point2.compose (Point2.compose (Point2.mk 1 0) (Point2.mk 9007199254740992 0))
                 (Point2.mk (-9007199254740992) 0)
  = Point2.mk 0 0 /\
  Point2.compose (Point2.mk 1 0)
                 (Point2.compose (Point2.mk 9007199254740992 0)
                                 (Point2.mk (-9007199254740992) 0))
  = Point2.mk 1 0 /\
  (Point2.x_ (Point2.mk 0 0) =? Point2.x_ (Point2.mk 1 0))%float = false.
Proof. repeat split. Qed.

(** C9, amended: compose is commutative for all points of each of the
    three types; compose is associative whenever all coordinates of the
    three points are integers of magnitude at most 2^51 (negative zero
    excluded), where no addition rounds. *)
Theorem compose_commutative_and_associative_on_small_integers :
  (forall p q : Point2.t, Point2.compose p q = Point2.compose q p) /\
  (forall p q : Point3.t, Point3.compose p q = Point3.compose q p) /\
  (forall p q : StereoPoint2.t,
     StereoPoint2.compose p q = StereoPoint2.compose q p) /\
  (forall p q r : Point2.t,
     Point2.small_ints p = true -> Point2.small_ints q = true ->
     Point2.small_ints r = true ->
     Point2.compose (Point2.compose p q) r
     = Point2.compose p (Point2.compose q r)) /\
  (forall p q r : Point3.t,
     Point3.small_ints p = true -> Point3.small_ints q = true ->
     Point3.small_ints r = true ->
     Point3.compose (Point3.compose p q) r
     = Point3.compose p (Point3.compose q r)) /\
  (forall p q r : StereoPoint2.t,
     StereoPoint2.small_ints p = true -> StereoPoint2.small_ints q = true ->
     StereoPoint2.small_ints r = true ->
     StereoPoint2.compose (StereoPoint2.compose p q) r
     = StereoPoint2.compose p (StereoPoint2.compose q r)).
Proof.
  repeat split.
  - intros [a b] [c d]. unfold Point2.compose, Point2.add. simpl.
    now rewrite (add_comm a c), (add_comm b d).
  - intros [a b c] [d e f]. unfold Point3.compose, Point3.add. simpl.
    now rewrite (add_comm a d), (add_comm b e), (add_comm c f).
  - intros [a b c] [d e f]. unfold StereoPoint2.compose, StereoPoint2.add. simpl.
    now rewrite (add_comm a d), (add_comm b e), (add_comm c f).
  - intros [a b] [c d] [e f] Hp Hq Hr.
    unfold Point2.small_ints in Hp, Hq, Hr.
    split_finite Hp. split_finite Hq. split_finite Hr. simpl in *.
    unfold Point2.compose, Point2.add. simpl.
    now rewrite !add_assoc_small_int.
  - intros [a b c] [d e f] [g h i] Hp Hq Hr.
    unfold Point3.small_ints in Hp, Hq, Hr.
    split_finite Hp. split_finite Hq. split_finite Hr. simpl in *.
    unfold Point3.compose, Point3.add. simpl.
    now rewrite !add_assoc_small_int.
  - intros [a b c] [d e f] [g h i] Hp Hq Hr.
    unfold StereoPoint2.small_ints in Hp, Hq, Hr.
    split_finite Hp. split_finite Hq. split_finite Hr. simpl in *.
    unfold StereoPoint2.compose, StereoPoint2.add. simpl.
    now rewrite !add_assoc_small_int.
Qed.

(** The integer points (1, 2), (-3, 40) and (5, -6). *)
Lemma compose_associative_witness :
  Point2.small_ints (Point2.mk 1 2) = true /\
  Point2.small_ints (Point2.mk (-3) 40) = true /\
  Point2.small_ints (Point2.mk 5 (-6)) = true /\
  Point2.compose (Point2.compose (Point2.mk 1 2) (Point2.mk (-3) 40)) (Point2.mk 5 (-6))
  = Point2.compose (Point2.mk 1 2) (Point2.compose (Point2.mk (-3) 40) (Point2.mk 5 (-6))).
Proof.
  split; [vm_compute; reflexivity|]. split; [vm_compute; reflexivity|].
  split; [vm_compute; reflexivity|].
  apply (proj1 (proj2 (proj2 (proj2
           compose_commutative_and_associative_on_small_integers))));
    vm_compute; reflexivity.
Defined.

(** * Further properties of the point types *)

(** ** Binary64 arithmetic: signs, zeros and comparisons *)

Lemma SFsub_add_opp X Y : SF64sub X Y = SF64add X (SFopp Y).
Proof.
  unfold SF64sub, SF64add.
  destruct X as [sx|sx| |sx mx ex], Y as [sy|sy| |sy my ey]; simpl;
    try reflexivity; now destruct sx, sy.
Qed.

Lemma sub_add_opp (x y : float) : (x - y = x + - y)%float.
Proof. float_ext. apply SFsub_add_opp. Qed.

Lemma opp_involutive (x : float) : (- - x = x)%float.
Proof. float_ext. now destruct (Prim2SF x) as [[|]|[|]| |s m e]; simpl; rewrite ?negb_involutive. Qed.

Lemma is_neg_zero_spec x :
  is_neg_zero x = false -> Prim2SF x <> S754_zero true.
Proof.
  unfold is_neg_zero. intros H E.
  assert (x = (-0)%float) as -> by (apply Prim2SF_inj; rewrite E; reflexivity).
  discriminate H.
Qed.

Lemma add_zero_r (x : float) : is_neg_zero x = false -> (x + 0 = x)%float.
Proof.
  intros H. apply is_neg_zero_spec in H. float_ext.
  change (Prim2SF 0) with (S754_zero false).
  destruct (Prim2SF x) as [[|]|s| |s m e]; try reflexivity. congruence.
Qed.

Lemma add_zero_l (x : float) : is_neg_zero x = false -> (0 + x = x)%float.
Proof. intros H. rewrite add_comm. now apply add_zero_r. Qed.

Lemma zero_sub_involutive (x : float) :
  is_neg_zero x = false -> (0 - (0 - x) = x)%float.
Proof.
  intros H. apply is_neg_zero_spec in H. float_ext.
  change (Prim2SF 0) with (S754_zero false).
  destruct (Prim2SF x) as [[|]|[|]| |s m e]; try reflexivity; try congruence.
  simpl. now rewrite negb_involutive.
Qed.

Lemma zero_sub_not_neg_zero (x : float) : is_neg_zero (0 - x) = false.
Proof.
  unfold is_neg_zero.
  destruct (Leibniz.eqb (0 - x) (-0)) eqn:E; [|reflexivity].
  apply Leibniz.eqb_spec in E. apply (f_equal Prim2SF) in E.
  rewrite sub_spec in E. change (Prim2SF 0) with (S754_zero false) in E.
  change (Prim2SF (-0)) with (S754_zero true) in E.
  destruct (Prim2SF x) as [[|]|[|]| |s m e]; discriminate E.
Qed.

Lemma sub_diag_not_finite (x : float) : is_finite x = false -> is_nan (x - x) = true.
Proof.
  rewrite is_finite_spec, is_nan_spec, sub_spec.
  now destruct (Prim2SF x) as [[|]|[|]| |s m e].
Qed.

Lemma abs_nan_ltb (d tol : float) : is_nan d = true -> (abs d <? tol)%float = false.
Proof.
  rewrite is_nan_spec, ltb_spec, abs_spec.
  now destruct (Prim2SF d) as [[|]|[|]| |s m e].
Qed.

Lemma abs_sub_diag_ltb_spec (x tol : float) :
  (abs (x - x) <? tol)%float = is_finite x && (0 <? tol)%float.
Proof.
  destruct (is_finite x) eqn:Hx; simpl.
  - now rewrite (sub_diag_finite x Hx).
  - apply abs_nan_ltb. now apply sub_diag_not_finite.
Qed.

(** No absolute value is below a tolerance that is not positive. *)
Lemma abs_ltb_nonpositive (d tol : float) :
  (0 <? tol)%float = false -> (abs d <? tol)%float = false.
Proof.
  rewrite !ltb_spec, abs_spec.
  change (Prim2SF 0) with (S754_zero false).
  unfold SFltb.
  destruct (Prim2SF tol) as [[|]|[|]| |[|] mt et]; simpl; try discriminate;
    intros _; now destruct (Prim2SF d) as [[|]|[|]| |s m e].
Qed.

Lemma SFabs_binary_round_aux s1 s2 m e l :
  SFabs (binary_round_aux prec emax s1 m e l) = SFabs (binary_round_aux prec emax s2 m e l).
Proof.
  unfold binary_round_aux.
  destruct (shr_fexp prec emax m e l) as [mrs' e'].
  destruct (shr_fexp prec emax _ e' loc_Exact) as [mrs'' e''].
  destruct (shr_m mrs''); try reflexivity.
  now destruct (e'' <=? emax - prec)%Z.
Qed.

Lemma SFabs_binary_normalize_opp n e :
  SFabs (binary_normalize prec emax (- n) e false) = SFabs (binary_normalize prec emax n e false).
Proof.
  destruct n as [|p|p]; try reflexivity; unfold Z.opp, binary_normalize, binary_round;
  destruct (shl_align _ _ _); apply SFabs_binary_round_aux.
Qed.

Lemma SFabs_sub_comm X Y : SFabs (SF64sub X Y) = SFabs (SF64sub Y X).
Proof.
  unfold SF64sub.
  destruct X as [sx|sx| |sx mx ex], Y as [sy|sy| |sy my ey]; simpl;
    try reflexivity; try (now destruct sx, sy).
  rewrite (Z.min_comm ey ex), <- SFabs_binary_normalize_opp. f_equal. f_equal. lia.
Qed.

Lemma abs_sub_comm (x y : float) : (abs (x - y) = abs (y - x))%float.
Proof. apply Prim2SF_inj. rewrite !abs_spec, !sub_spec. apply SFabs_sub_comm. Qed.



Lemma div_zero_not_finite (x z : float) : is_zero z = true -> is_finite (x / z) = false.
Proof.
  unfold is_zero. rewrite FloatAxioms.eqb_spec, is_finite_spec, div_spec.
  change (Prim2SF zero) with (S754_zero false). unfold SFeqb.
  destruct (Prim2SF z) as [[|]|[|]| |[|] mz ez]; simpl; try discriminate; intros _;
    now destruct (Prim2SF x) as [[|]|[|]| |s m e].
Qed.

(** ** Binary64 arithmetic: scaling by one *)

Section Scaling.

Local Open Scope Z_scope.

(** Rounding a mantissa that is a canonical one followed by zero bits
    gives the canonical one back, for normal and subnormal values. *)
Lemma binary_round_aux_exact s m e m' e' :
  canonical_mantissa prec emax m' e' = true -> e' <= 971 -> e <= e' ->
  Z.pos m = Z.pos m' * 2 ^ (e' - e) ->
  binary_round_aux prec emax s (Z.pos m) e loc_Exact = S754_finite s m' e'.
Proof.
  intros Hc He' Hle Hm.
  unfold canonical_mantissa in Hc. apply Z.eqb_eq in Hc.
  pose proof (digits2_pos_shift m' m (e' - e) ltac:(lia) Hm) as Hd.
  assert (Hf : fexp prec emax (Z.pos (digits2_pos m) + e) = e').
  { transitivity (fexp prec emax (Z.pos (digits2_pos m') + e'));
      [f_equal; lia | exact Hc]. }
  assert (Hshr : shr (shr_record_of_loc (Z.pos m) loc_Exact) e (e' - e)
                 = (Build_shr_record (Z.pos m') false false, e')).
  { destruct (e' - e) as [|d|d] eqn:Hd'; try lia; cbn [shr shr_record_of_loc].
    - assert (m = m') by (simpl in Hm; lia). subst m'. f_equal. lia.
    - rewrite iter_pos_iter, (iter_shr_1_exact d m' m) by exact Hm.
      f_equal. lia. }
  unfold binary_round_aux, shr_fexp. cbn [Zdigits2]. rewrite Hf, Hshr.
  cbn [shr_m loc_of_shr_record round_nearest_even Zdigits2].
  rewrite Hc, Z.sub_diag. cbn [shr shr_record_of_loc shr_m].
  change emax with 1024. change prec with 53.
  replace (e' <=? 1024 - 53) with true by (symmetry; apply Z.leb_le; lia).
  reflexivity.
Qed.

Lemma SFmul_one_r X :
  valid_binary X = true ->
  SF64mul X (S754_finite false 4503599627370496 (-52)) = X.
Proof.
  intros Hv. destruct X as [[|]|[|]| |s m e]; try reflexivity.
  cbn [valid_binary] in Hv. unfold bounded in Hv.
  apply andb_true_iff in Hv. destruct Hv as [Hc Hb]. apply Z.leb_le in Hb.
  change (emax - prec) with 971 in Hb.
  unfold SF64mul, SFmul. rewrite xorb_false_r.
  apply binary_round_aux_exact; try assumption; try lia.
  replace (e - (e + -52)) with 52 by lia. rewrite Pos2Z.inj_mul. reflexivity.
Qed.

Lemma SFmul_minus_one_r X :
  valid_binary X = true ->
  SF64mul X (S754_finite true 4503599627370496 (-52)) = SFopp X.
Proof.
  intros Hv. destruct X as [[|]|[|]| |s m e]; try reflexivity.
  cbn [valid_binary] in Hv. unfold bounded in Hv.
  apply andb_true_iff in Hv. destruct Hv as [Hc Hb]. apply Z.leb_le in Hb.
  change (emax - prec) with 971 in Hb.
  unfold SF64mul, SFmul. rewrite xorb_true_r. cbn [SFopp].
  apply binary_round_aux_exact; try assumption; try lia.
  replace (e - (e + -52)) with 52 by lia. rewrite Pos2Z.inj_mul. reflexivity.
Qed.

Lemma SFdiv_one_r X :
  valid_binary X = true ->
  SF64div X (S754_finite false 4503599627370496 (-52)) = X.
Proof.
  intros Hv. destruct X as [[|]|[|]| |s m e]; try reflexivity.
  cbn [valid_binary] in Hv. unfold bounded in Hv.
  apply andb_true_iff in Hv. destruct Hv as [Hc Hb]. apply Z.leb_le in Hb.
  change (emax - prec) with 971 in Hb.
  pose proof Hc as Hc'. unfold canonical_mantissa, fexp in Hc'. apply Z.eqb_eq in Hc'.
  change (SpecFloat.emin prec emax) with (-1074) in Hc'. change prec with 53 in Hc'.
  unfold SF64div, SFdiv, SFdiv_core_binary. rewrite xorb_false_r.
  cbn [Zdigits2]. change (digits2_pos 4503599627370496) with 53%positive.
  unfold fexp. change (SpecFloat.emin prec emax) with (-1074). change prec with 53.
  set (e' := Z.min _ _).
  assert (He' : (e' = e - 1 /\ -1074 < e) \/ (e' = e /\ e = -1074)) by (unfold e'; lia).
  assert (H52 : 0 < 2 ^ 52) by reflexivity.
  destruct He' as [[-> Hn]|[-> Hs]].
  - replace (e - -52 - (e - 1)) with 53 by lia.
    rewrite Z.shiftl_mul_pow2 by lia.
    pose proof (Z.div_eucl_eq (Z.pos m * 2 ^ 53) 4503599627370496 ltac:(lia)) as Heq.
    pose proof (Z.mod_pos_bound (Z.pos m * 2 ^ 53) 4503599627370496 ltac:(lia)) as Hr.
    unfold Z.modulo in Hr.
    destruct (Z.div_eucl (Z.pos m * 2 ^ 53) 4503599627370496) as [q r].
    change (2 ^ 53) with (2 * 4503599627370496) in Heq.
    assert (r = 0 /\ q = Z.pos m~0) as [-> ->] by lia.
    change (new_location 4503599627370496 0) with loc_Exact.
    apply binary_round_aux_exact; try assumption; try lia.
    replace (e - (e - 1)) with 1 by lia. simpl. lia.
  - replace (e - -52 - e) with 52 by lia.
    rewrite Z.shiftl_mul_pow2 by lia.
    pose proof (Z.div_eucl_eq (Z.pos m * 2 ^ 52) 4503599627370496 ltac:(lia)) as Heq.
    pose proof (Z.mod_pos_bound (Z.pos m * 2 ^ 52) 4503599627370496 ltac:(lia)) as Hr.
    unfold Z.modulo in Hr.
    destruct (Z.div_eucl (Z.pos m * 2 ^ 52) 4503599627370496) as [q r].
    change (2 ^ 52) with 4503599627370496 in Heq.
    assert (r = 0 /\ q = Z.pos m) as [-> ->] by lia.
    change (new_location 4503599627370496 0) with loc_Exact.
    apply binary_round_aux_exact; try assumption; try lia.
    rewrite Z.sub_diag. simpl. lia.
Qed.

End Scaling.

Lemma mul_one_r (x : float) : (x * 1 = x)%float.
Proof.
  apply Prim2SF_inj. rewrite mul_spec.
  change (Prim2SF 1) with (S754_finite false 4503599627370496 (-52)).
  apply SFmul_one_r, Prim2SF_valid.
Qed.

Lemma mul_minus_one_r (x : float) : (x * (-1) = - x)%float.
Proof.
  apply Prim2SF_inj. rewrite mul_spec, opp_spec.
  change (Prim2SF (-1)) with (S754_finite true 4503599627370496 (-52)).
  apply SFmul_minus_one_r, Prim2SF_valid.
Qed.

Lemma div_one_r (x : float) : (x / 1 = x)%float.
Proof.
  apply Prim2SF_inj. rewrite div_spec.
  change (Prim2SF 1) with (S754_finite false 4503599627370496 (-52)).
  apply SFdiv_one_r, Prim2SF_valid.
Qed.

Lemma SFltb_leb_trans A T T' :
  SFltb A T = true -> SFleb T T' = true -> SFltb A T' = true.
Proof.
  unfold SFltb, SFleb, SFcompare.
  destruct A as [sa|sa| |sa ma ea], T as [st|st| |st mt et], T' as [su|su| |su mu eu];
    try discriminate; try (destruct sa); try (destruct st); try (destruct su);
    try discriminate; try reflexivity;
    change (Pos.compare_cont Eq ma mt) with (ma ?= mt)%positive;
    change (Pos.compare_cont Eq mt mu) with (mt ?= mu)%positive;
    change (Pos.compare_cont Eq ma mu) with (ma ?= mu)%positive;
    destruct (Z.compare_spec ea et); destruct (Z.compare_spec et eu);
    destruct (Z.compare_spec ea eu);
    destruct (Pos.compare_spec ma mt); destruct (Pos.compare_spec mt mu);
    destruct (Pos.compare_spec ma mu);
    simpl; try discriminate; try reflexivity; intros _ _; subst; lia.
Qed.

Lemma ltb_leb_trans (a t t' : float) :
  (a <? t)%float = true -> (t <=? t')%float = true -> (a <? t')%float = true.
Proof. rewrite !ltb_spec, leb_spec. apply SFltb_leb_trans. Qed.

Lemma sub_nan (x y : float) :
  is_nan x || is_nan y = true -> is_nan (x - y) = true.
Proof.
  rewrite !is_nan_spec, sub_spec.
  destruct (Prim2SF x) as [[|]|[|]| |s m e], (Prim2SF y) as [[|]|[|]| |s' m' e'];
    simpl; intros H; try reflexivity; discriminate H.
Qed.

Lemma add_sub_cancel_small_int (x y : float) :
  small_int x = true -> small_int y = true -> ((x + y) - y = x)%float.
Proof.
  intros Hx Hy.
  destruct (small_int_spec x Hx) as (a & Ha & Ex).
  destruct (small_int_spec y Hy) as (b & Hb & Ey).
  apply Prim2SF_inj.
  rewrite (sub_Zfloat (x + y) y (a + b) b);
    try assumption; try (apply add_Zfloat; try assumption); try pow_bounds.
  rewrite Ex. f_equal. lia.
Qed.

Ltac split_negb H :=
  repeat (apply andb_true_iff in H; let H' := fresh H in destruct H as [H H']);
  repeat match goal with
         | H0 : negb _ = true |- _ => apply negb_true_iff in H0
         end.

(** ** vector(), dim() and the constructors *)

(** X1: vector() has dim() entries, dim() is the static dimension, vector()
    is the same vector as Logmap, and constructing a point from vector()
    gives the point back. *)
Theorem vector_round_trip :
  (forall p : Point2.t,
     length (Point2.vector p) = Point2.dim p /\ Point2.dim p = Point2.Dim /\
     Point2.vector p = Point2.Logmap p /\
     Point2.of_Vector (Point2.vector p) = ok p) /\
  (forall p : Point3.t,
     length (Point3.vector p) = Point3.dim p /\ Point3.dim p = Point3.Dim /\
     Point3.vector p = Point3.Logmap p /\
     Point3.of_Vector (Point3.vector p) = ok p) /\
  (forall p : StereoPoint2.t,
     length (StereoPoint2.vector p) = StereoPoint2.dim p /\
     StereoPoint2.dim p = StereoPoint2.Dim /\
     StereoPoint2.Expmap (StereoPoint2.vector p) = ok p).
Proof. repeat split; destruct p; reflexivity. Qed.

(** ** The additive group on all doubles *)

(** X2: for all Point2 p and q, also with infinite, NaN or zero
    coordinates, between(p, q) is q composed with the inverse of p, in
    either order. *)
Theorem between_is_compose_with_inverse (p q : Point2.t) :
  Point2.between p q = Point2.compose q (Point2.inverse p) /\
  Point2.between p q = Point2.compose (Point2.inverse p) q.
Proof.
  destruct p as [a b], q as [c d].
  unfold Point2.between, Point2.compose, Point2.inverse, Point2.sub, Point2.add.
  simpl. split; [|rewrite (add_comm (- a) c), (add_comm (- b) d)];
    now rewrite !sub_add_opp.
Qed.

(** X3: for Point2 and Point3, inverse is an involution on all doubles,
    and the unary minus is the same operation as inverse. *)
Theorem inverse_involutive :
  (forall p : Point2.t,
     Point2.inverse (Point2.inverse p) = p /\ Point2.neg p = Point2.inverse p) /\
  (forall p : Point3.t,
     Point3.inverse (Point3.inverse p) = p /\ Point3.neg p = Point3.inverse p).
Proof.
  split; intros p; destruct p; (split; [|reflexivity]);
    unfold Point2.inverse, Point3.inverse; simpl; now rewrite !opp_involutive.
Qed.

(** X4: StereoPoint2::inverse, which subtracts from the zero point, never
    returns a negative-zero coordinate, and applying it twice gives back
    every point that has no negative-zero coordinate. *)
Theorem StereoPoint2_inverse_involutive :
  (forall p : StereoPoint2.t,
     StereoPoint2.no_neg_zero (StereoPoint2.inverse p) = true) /\
  (forall p : StereoPoint2.t, StereoPoint2.no_neg_zero p = true ->
     StereoPoint2.inverse (StereoPoint2.inverse p) = p).
Proof.
  split.
  - intros [a b c]. unfold StereoPoint2.no_neg_zero, StereoPoint2.inverse,
      StereoPoint2.sub, StereoPoint2.default. simpl.
    now rewrite !zero_sub_not_neg_zero.
  - intros [a b c] Hp. unfold StereoPoint2.no_neg_zero in Hp. simpl in Hp.
    split_negb Hp.
    unfold StereoPoint2.inverse, StereoPoint2.sub, StereoPoint2.default. simpl.
    now rewrite !zero_sub_involutive.
Qed.

(** The point (1.5, -2, 0), which has a positive-zero coordinate. *)
Lemma StereoPoint2_inverse_involutive_witness :
  StereoPoint2.no_neg_zero (StereoPoint2.mk 1.5 (-2) 0) = true /\
  StereoPoint2.inverse (StereoPoint2.inverse (StereoPoint2.mk 1.5 (-2) 0))
  = StereoPoint2.mk 1.5 (-2) 0.
Proof.
  split; [reflexivity|].
  apply (proj2 StereoPoint2_inverse_involutive). reflexivity.
Defined.

Example StereoPoint2_inverse_twice_neg_zero :
  StereoPoint2.inverse (StereoPoint2.inverse (StereoPoint2.mk (-0) 1 2))
  = StereoPoint2.mk 0 1 2.
Proof. reflexivity. Qed.

(** X5: the default (all-zero) point is a left and right identity of
    compose on every point that has no negative-zero coordinate, also on
    points with infinite or NaN coordinates (Point2 and StereoPoint2). *)
Theorem default_is_identity_of_compose :
  (forall p : Point2.t, Point2.no_neg_zero p = true ->
     Point2.compose p Point2.default = p /\
     Point2.compose Point2.default p = p) /\
  (forall p : StereoPoint2.t, StereoPoint2.no_neg_zero p = true ->
     StereoPoint2.compose p StereoPoint2.default = p /\
     StereoPoint2.compose StereoPoint2.default p = p).
Proof.
  split.
  - intros [a b] Hp. unfold Point2.no_neg_zero in Hp. simpl in Hp. split_negb Hp.
    unfold Point2.compose, Point2.add, Point2.default. simpl.
    now rewrite !add_zero_r, !add_zero_l.
  - intros [a b c] Hp. unfold StereoPoint2.no_neg_zero in Hp. simpl in Hp.
    split_negb Hp.
    unfold StereoPoint2.compose, StereoPoint2.add, StereoPoint2.default. simpl.
    now rewrite !add_zero_r, !add_zero_l.
Qed.

(** The point (infinity, 3). *)
Lemma default_is_identity_witness :
  Point2.no_neg_zero (Point2.mk infinity 3) = true /\
  Point2.compose (Point2.mk infinity 3) Point2.default = Point2.mk infinity 3.
Proof.
  split; [reflexivity|].
  apply (proj1 default_is_identity_of_compose). reflexivity.
Defined.

Example compose_default_neg_zero :
  Point2.compose (Point2.mk (-0) 1) Point2.default = Point2.mk 0 1.
Proof. reflexivity. Qed.

(** X15: for every Point2 with finite coordinates between(p, p) is the
    zero point, and for every StereoPoint2 with finite coordinates p - p
    is the zero point. *)
Theorem between_self_is_default :
  (forall p : Point2.t, Point2.finite p = true ->
     Point2.between p p = Point2.default) /\
  (forall p : StereoPoint2.t, StereoPoint2.finite p = true ->
     StereoPoint2.sub p p = StereoPoint2.default).
Proof.
  split.
  - intros [a b] Hp. unfold Point2.finite in Hp. split_finite Hp. simpl in *.
    unfold Point2.between, Point2.sub, Point2.default. simpl.
    now rewrite !sub_diag_finite.
  - intros [a b c] Hp. unfold StereoPoint2.finite in Hp. split_finite Hp. simpl in *.
    unfold StereoPoint2.sub, StereoPoint2.default. simpl.
    now rewrite !sub_diag_finite.
Qed.

(** The finite point (1.5, -2). *)
Lemma between_self_witness :
  Point2.finite (Point2.mk 1.5 (-2)) = true /\
  Point2.between (Point2.mk 1.5 (-2)) (Point2.mk 1.5 (-2)) = Point2.default.
Proof.
  split; [reflexivity|].
  apply (proj1 between_self_is_default). reflexivity.
Defined.

(** X16: on Point2 and StereoPoint2 values whose coordinates are integers
    of magnitude at most 2^51 (negative zero excluded), subtracting q
    after adding q gives p back. *)
Theorem sub_cancels_add_on_small_integers :
  (forall p q : Point2.t,
     Point2.small_ints p = true -> Point2.small_ints q = true ->
     Point2.sub (Point2.add p q) q = p) /\
  (forall p q : StereoPoint2.t,
     StereoPoint2.small_ints p = true -> StereoPoint2.small_ints q = true ->
     StereoPoint2.sub (StereoPoint2.add p q) q = p).
Proof.
  split.
  - intros [a b] [c d] Hp Hq. unfold Point2.small_ints in Hp, Hq.
    split_finite Hp. split_finite Hq. simpl in *.
    unfold Point2.sub, Point2.add. simpl.
    now rewrite !add_sub_cancel_small_int.
  - intros [a b c] [d e f] Hp Hq. unfold StereoPoint2.small_ints in Hp, Hq.
    split_finite Hp. split_finite Hq. simpl in *.
    unfold StereoPoint2.sub, StereoPoint2.add. simpl.
    now rewrite !add_sub_cancel_small_int.
Qed.

(** The stereo points (10, 8, 5) and (-3, 4, 0). *)
Lemma sub_cancels_add_witness :
  StereoPoint2.small_ints (StereoPoint2.mk 10 8 5) = true /\
  StereoPoint2.small_ints (StereoPoint2.mk (-3) 4 0) = true /\
  StereoPoint2.sub (StereoPoint2.add (StereoPoint2.mk 10 8 5) (StereoPoint2.mk (-3) 4 0))
                   (StereoPoint2.mk (-3) 4 0)
  = StereoPoint2.mk 10 8 5.
Proof.
  split; [vm_compute; reflexivity|]. split; [vm_compute; reflexivity|].
  apply (proj2 sub_cancels_add_on_small_integers); vm_compute; reflexivity.
Defined.

Example sub_after_add_rounds :
  Point2.sub (Point2.add (Point2.mk 1 0) (Point2.mk 1e16 0)) (Point2.mk 1e16 0)
  = Point2.mk 0 0.
Proof. reflexivity. Qed.

(** ** StereoPoint2::equals *)

(** X6: equals(p, p, tol) is true exactly when all fields of p are finite
    and tol is greater than 0. *)
Theorem StereoPoint2_equals_self (p : StereoPoint2.t) (tol : float) :
  StereoPoint2.equals p p tol = StereoPoint2.finite p && (0 <? tol)%float.
Proof.
  destruct p as [a b c]. unfold StereoPoint2.equals, StereoPoint2.finite. simpl.
  rewrite !abs_sub_diag_ltb_spec.
  destruct (is_finite a), (is_finite b), (is_finite c), (0 <? tol)%float; reflexivity.
Qed.

(** X7: equals is symmetric in the two points, for every tolerance and
    all doubles. *)
Theorem StereoPoint2_equals_symmetric (p q : StereoPoint2.t) (tol : float) :
  StereoPoint2.equals p q tol = StereoPoint2.equals q p tol.
Proof.
  destruct p as [a b c], q as [d e f]. unfold StereoPoint2.equals. simpl.
  now rewrite (abs_sub_comm a d), (abs_sub_comm b e), (abs_sub_comm c f).
Qed.

(** X8: equals is false whenever the tolerance is not greater than 0 (zero,
    negative or NaN), and whenever a field of either point is NaN. *)
Theorem StereoPoint2_equals_rejects (p q : StereoPoint2.t) (tol : float) :
  ((0 <? tol)%float = false -> StereoPoint2.equals p q tol = false) /\
  (StereoPoint2.has_nan p || StereoPoint2.has_nan q = true ->
   StereoPoint2.equals p q tol = false).
Proof.
  destruct p as [a b c], q as [d e f].
  unfold StereoPoint2.equals, StereoPoint2.has_nan. simpl. split.
  - intros Htol. now rewrite (abs_ltb_nonpositive _ tol Htol).
  - intros H.
    assert (Hn : is_nan (a - d) = true \/ is_nan (b - e) = true
                 \/ is_nan (c - f) = true).
    { destruct (is_nan a) eqn:Ha; [left; apply sub_nan; now rewrite Ha|].
      destruct (is_nan d) eqn:Hd;
        [left; apply sub_nan; rewrite Hd; apply orb_true_r|].
      destruct (is_nan b) eqn:Hb;
        [right; left; apply sub_nan; now rewrite Hb|].
      destruct (is_nan e) eqn:He;
        [right; left; apply sub_nan; rewrite He; apply orb_true_r|].
      right; right. apply sub_nan.
      destruct (is_nan c), (is_nan f); try reflexivity; discriminate H. }
    destruct Hn as [Hn|[Hn|Hn]]; rewrite (abs_nan_ltb _ tol Hn);
      rewrite ?andb_false_r; reflexivity.
Qed.

(** A negative tolerance. *)
Lemma StereoPoint2_equals_rejects_witness :
  StereoPoint2.equals (StereoPoint2.mk 1 2 3) (StereoPoint2.mk 1 2 3) (-1) = false.
Proof.
  apply (proj1 (StereoPoint2_equals_rejects
                  (StereoPoint2.mk 1 2 3) (StereoPoint2.mk 1 2 3) (-1))).
  reflexivity.
Defined.

(** X9: equals is monotone in the tolerance: two points that are equal
    within tol are equal within every tolerance that is at least tol. *)
Theorem StereoPoint2_equals_monotone (p q : StereoPoint2.t) (tol tol' : float) :
  StereoPoint2.equals p q tol = true -> (tol <=? tol')%float = true ->
  StereoPoint2.equals p q tol' = true.
Proof.
  destruct p as [a b c], q as [d e f]. unfold StereoPoint2.equals. simpl.
  intros H Hle. split_finite H.
  now rewrite (ltb_leb_trans _ tol tol' H Hle), (ltb_leb_trans _ tol tol' H1 Hle),
    (ltb_leb_trans _ tol tol' H0 Hle).
Qed.

(** Points half a pixel apart, tolerances 1 and 2. *)
Lemma StereoPoint2_equals_monotone_witness :
  StereoPoint2.equals (StereoPoint2.mk 10 8 5) (StereoPoint2.mk 10.5 8 5) 1 = true /\
  (1 <=? 2)%float = true /\
  StereoPoint2.equals (StereoPoint2.mk 10 8 5) (StereoPoint2.mk 10.5 8 5) 2 = true.
Proof.
  split; [reflexivity|]. split; [reflexivity|].
  apply (StereoPoint2_equals_monotone _ _ 1 2); reflexivity.
Defined.

(** ** Scalar multiplication and division of Point2 *)

(** X10: multiplying or dividing a Point2 by 1 returns the point, and
    multiplying by -1 (from either side) returns its inverse, for all
    doubles. *)
Theorem Point2_scale_by_unit (p : Point2.t) :
  Point2.mul p 1 = p /\ Point2.div p 1 = p /\ Point2.smul 1 p = p /\
  Point2.mul p (-1) = Point2.inverse p /\
  Point2.smul (-1) p = Point2.inverse p.
Proof.
  destruct p as [a b].
  unfold Point2.smul, Point2.mul, Point2.div, Point2.inverse. simpl.
  now rewrite !mul_one_r, !div_one_r, !mul_minus_one_r.
Qed.

(** X11: dividing a Point2 by a zero (of either sign) does not fail; no
    coordinate of the result is a finite double (each is infinite or
    NaN). *)
Theorem Point2_div_by_zero (p : Point2.t) (z : float) :
  is_zero z = true ->
  is_finite (Point2.x_ (Point2.div p z)) = false /\
  is_finite (Point2.y_ (Point2.div p z)) = false.
Proof.
  intros Hz. destruct p as [a b]. unfold Point2.div. simpl.
  now rewrite !(div_zero_not_finite _ z Hz).
Qed.

(** The point (1, 0) divided by 0 is (infinity, NaN). *)
Lemma Point2_div_by_zero_witness :
  is_zero 0 = true /\
  is_finite (Point2.x_ (Point2.div (Point2.mk 1 0) 0)) = false /\
  is_finite (Point2.y_ (Point2.div (Point2.mk 1 0) 0)) = false.
Proof.
  split; [reflexivity|].
  apply (Point2_div_by_zero (Point2.mk 1 0) 0). reflexivity.
Defined.

Example Point2_div_by_zero_value :
  Point2.div (Point2.mk 1 0) 0 = Point2.mk infinity nan.
Proof. reflexivity. Qed.

(** ** Output slots in the store *)

Lemma apply_writes_two (l1 l2 : loc) (M1 M2 : Matrix) (st : gmap nat Matrix) :
  apply_writes [(l1, M1); (l2, M2)] st = <[l2 := M2]> (<[l1 := M1]> st).
Proof. reflexivity. Qed.

(** X12: after the between overload is called with two different
    matrices as slots, the first holds what is assigned through H1 (the
    negated eye(2)) and the second what is assigned through H2 (eye(2));
    when the same matrix is passed for both slots it holds eye(2), the
    assignment through H2 being the later one.  After the compose overload
    both slots hold eye(2). *)
Theorem slots_after_between_and_compose
    (p1 p2 : Point2.t) (st : gmap nat Matrix) :
  (forall l1 l2 : loc, l1 <> l2 ->
     apply_writes (snd (Point2.between_opt p1 p2 (Some l1) (Some l2))) st !! l1
     = Some (mat_opp (eye 2)) /\
     apply_writes (snd (Point2.between_opt p1 p2 (Some l1) (Some l2))) st !! l2
     = Some (eye 2)) /\
  (forall l : loc,
     apply_writes (snd (Point2.between_opt p1 p2 (Some l) (Some l))) st !! l
     = Some (eye 2)) /\
  (forall l1 l2 : loc,
     apply_writes (snd (Point2.compose_opt p1 p2 (Some l1) (Some l2))) st !! l1
     = Some (eye 2) /\
     apply_writes (snd (Point2.compose_opt p1 p2 (Some l1) (Some l2))) st !! l2
     = Some (eye 2)).
Proof.
  repeat split; intros; cbn [Point2.between_opt Point2.compose_opt snd assign_if app];
    rewrite apply_writes_two.
  - rewrite lookup_insert_ne by congruence. apply lookup_insert_eq.
  - apply lookup_insert_eq.
  - apply lookup_insert_eq.
  - destruct (decide (l1 = l2)) as [->|Hne].
    + apply lookup_insert_eq.
    + rewrite lookup_insert_ne by congruence. apply lookup_insert_eq.
  - apply lookup_insert_eq.
Qed.

(** Slots 0 and 1 of an empty store. *)
Lemma slots_after_between_witness :
  apply_writes (snd (Point2.between_opt (Point2.mk 1 2) (Point2.mk 4 6)
                                        (Some 0%nat) (Some 1%nat)))
               (∅ : gmap nat Matrix) !! 0%nat
  = Some (mat_opp (eye 2)).
Proof.
  apply (proj1 (slots_after_between_and_compose
                  (Point2.mk 1 2) (Point2.mk 4 6) ∅)).
  discriminate.
Defined.

(** ** StereoPoint2::point2 and the operators *)

(** X13: point2() commutes with the operators: the left-image point of a
    sum, a difference or a composition of stereo points is the sum,
    difference or composition of their left-image points, and the
    left-image point of the zero stereo point is the zero Point2. *)
Theorem point2_is_additive (a b : StereoPoint2.t) :
  StereoPoint2.point2 (StereoPoint2.add a b)
  = Point2.add (StereoPoint2.point2 a) (StereoPoint2.point2 b) /\
  StereoPoint2.point2 (StereoPoint2.sub a b)
  = Point2.sub (StereoPoint2.point2 a) (StereoPoint2.point2 b) /\
  StereoPoint2.point2 (StereoPoint2.compose a b)
  = Point2.compose (StereoPoint2.point2 a) (StereoPoint2.point2 b) /\
  StereoPoint2.point2 StereoPoint2.default = Point2.default.
Proof. repeat split. Qed.

(** ** Point2::operator== as a relation *)



Example operator_eq_not_symmetric :
  Point2.eq_op (Point2.mk 0 nan) (Point2.mk 0 1) = true /\
  Point2.eq_op (Point2.mk 0 1) (Point2.mk 0 nan) = false.
Proof. split; reflexivity. Qed.
